(** * python-jss: the object factory, the session verbs and the QuerySet

    A shallow embedding of [jss/jamf_software_server.py] (classes [JSS] and
    [JSSObjectFactory]) and of [jss/queryset.py] (class [QuerySet]), with the
    properties of the factory's dispatch, of the list builder, of the POST
    verb and of the QuerySet's constructor and rendering.

    Python byte strings are [string]s (one [ascii] per byte); Python integers
    are [Z]; exceptions are values of [exn]; the HTTP session is a server
    state threaded through a small state-and-error monad together with the
    log of the requests sent and of the lines printed. *)

From Stdlib Require Import ZArith Ascii String DecimalString.
From stdpp Require Import base numbers list strings gmap.
From stdpp Require Import sorting.

Open Scope Z_scope.

(** ** Byte-string primitives of the Python runtime *)

Definition is_digit (c : ascii) : bool :=
  let n := nat_of_ascii c in (48 <=? n)%nat && (n <=? 57)%nat.

Definition is_lower (c : ascii) : bool :=
  let n := nat_of_ascii c in (97 <=? n)%nat && (n <=? 122)%nat.

Definition is_upper (c : ascii) : bool :=
  let n := nat_of_ascii c in (65 <=? n)%nat && (n <=? 90)%nat.

Definition ascii_upper (c : ascii) : ascii :=
  if is_lower c then ascii_of_nat (nat_of_ascii c - 32) else c.

Definition ascii_lower (c : ascii) : ascii :=
  if is_upper c then ascii_of_nat (nat_of_ascii c + 32) else c.

(** [s.upper()] on a byte string. *)
Fixpoint upper (s : string) : string :=
  match s with
  | EmptyString => EmptyString
  | String c s' => String (ascii_upper c) (upper s')
  end.

(** [s.split(sep)] for a one-byte separator: never the empty list. *)
Fixpoint split (sep : ascii) (s : string) : list string :=
  match s with
  | EmptyString => [EmptyString]
  | String c s' =>
      if bool_decide (c = sep) then EmptyString :: split sep s'
      else match split sep s' with
           | h :: t => String c h :: t
           | [] => [String c EmptyString]
           end
  end.

(** [sep.join(l)]. *)
Fixpoint join (sep : string) (l : list string) : string :=
  match l with
  | [] => ""
  | [x] => x
  | x :: rest => x +:+ sep +:+ join sep rest
  end.

(** [s.rstrip("/")]: the trailing slashes go. *)
Fixpoint rstrip_slash (s : string) : string :=
  match s with
  | EmptyString => EmptyString
  | String c s' =>
      match rstrip_slash s' with
      | EmptyString => if bool_decide (c = "/"%char) then EmptyString else String c EmptyString
      | r => String c r
      end
  end.

Fixpoint spaces (n : nat) : string :=
  match n with
  | O => ""
  | S n' => String " " (spaces n')
  end.

(** The format field [{:>w}]: right-aligned in [w] columns, never cut. *)
Definition rjust (s : string) (w : nat) : string :=
  spaces (w - String.length s) +:+ s.

(** [int(s)] for a string of decimal digits. *)
Definition digit_value (c : ascii) : Z := Z.of_nat (nat_of_ascii c - 48).

Fixpoint int_of_digits_from (acc : Z) (s : string) : Z :=
  match s with
  | EmptyString => acc
  | String c s' => int_of_digits_from (10 * acc + digit_value c) s'
  end.

Definition int_of_digits (s : string) : Z := int_of_digits_from 0 s.

(** [urllib.quote(s)] with its default [safe="/"]: letters, digits and
    [_.-/] stay, every other byte becomes [%XX] in upper-case hex. *)
Definition quote_safe (c : ascii) : bool :=
  is_lower c || is_upper c || is_digit c
  || bool_decide (c = "_"%char) || bool_decide (c = "."%char)
  || bool_decide (c = "-"%char) || bool_decide (c = "/"%char).

Definition hex_digit (n : nat) : ascii :=
  match String.get n "0123456789ABCDEF" with
  | Some c => c
  | None => "0"%char
  end.

Fixpoint quote (s : string) : string :=
  match s with
  | EmptyString => EmptyString
  | String c s' =>
      if quote_safe c then String c (quote s')
      else String "%" (String (hex_digit (nat_of_ascii c / 16))
                         (String (hex_digit (nat_of_ascii c mod 16)) (quote s')))
  end.

(** ** The regular expression of [JSS.post]

    [re.search(r"<id>([0-9]+)</id>", s)]: the leftmost position where
    ["<id>"], one or more digits and ["</id>"] follow one another.  The digit
    run is taken greedily; giving a digit back cannot help, because the byte
    after a shorter run is a digit and the pattern wants ["<"] there. On a
    byte string [[0-9]] and [\d] are the same class. *)

Fixpoint strip_prefix (p s : string) : option string :=
  match p, s with
  | EmptyString, _ => Some s
  | String a p', String b s' => if bool_decide (a = b) then strip_prefix p' s' else None
  | String _ _, EmptyString => None
  end.

(** The longest run of digits at the head of [s], and what follows it. *)
Fixpoint span_digits (s : string) : string * string :=
  match s with
  | String c s' =>
      if is_digit c then let '(d, r) := span_digits s' in (String c d, r)
      else (EmptyString, s)
  | EmptyString => (EmptyString, EmptyString)
  end.

(** The pattern matched at the head of [s]: group 1 when it matches. *)
Definition match_id_here (s : string) : option string :=
  match strip_prefix "<id>" s with
  | Some r =>
      let '(d, r') := span_digits r in
      match d with
      | EmptyString => None
      | _ => match strip_prefix "</id>" r' with
             | Some _ => Some d
             | None => None
             end
      end
  | None => None
  end.

(** [re.search(r"<id>([0-9]+)</id>", s)], as group 1 of the leftmost match. *)
Fixpoint re_search_id (s : string) : option string :=
  match match_id_here s with
  | Some d => Some d
  | None => match s with
            | EmptyString => None
            | String _ s' => re_search_id s'
            end
  end.

(** What the pattern means: [s] carries ["<id>"], the non-empty digit string
    [d] and ["</id>"] right after [pre]. *)
Fixpoint all_digits (s : string) : bool :=
  match s with
  | EmptyString => true
  | String c s' => is_digit c && all_digits s'
  end.

Definition id_match (pre d post s : string) : Prop :=
  s = pre +:+ "<id>" +:+ d +:+ "</id>" +:+ post /\ d <> "" /\ all_digits d = true.

(** ** XML trees ([xml.etree.ElementTree.Element]) *)

#[warnings="-register-all"]
Inductive Element : Type :=
  | mkElement (tag : string) (text : option string) (children : list Element).

Definition elem_tag (e : Element) : string := let 'mkElement t _ _ := e in t.
Definition elem_text (e : Element) : option string := let 'mkElement _ x _ := e in x.
Definition elem_children (e : Element) : list Element := let 'mkElement _ _ c := e in c.

(** [e.find(tag)]: the first child of [e] with that tag, Python's [None]
    when there is none. *)
Definition find (t : string) (e : Element) : option Element :=
  List.find (fun c => bool_decide (elem_tag c = t)) (elem_children e).

(** ** The resource classes imported from [jssobjects] *)

(** [Class_] is the source's [Class], a reserved word here. *)
Inductive JSSClass : Type :=
  | Account | AccountGroup | ActivationCode | AdvancedComputerSearch
  | AdvancedMobileDeviceSearch | AdvancedUserSearch | Building | BYOProfile
  | Category | Class_ | Computer | ComputerCheckIn | ComputerCommand
  | ComputerConfiguration | ComputerExtensionAttribute | ComputerGroup
  | ComputerInventoryCollection | ComputerInvitation | ComputerReport
  | Department | DirectoryBinding | DiskEncryptionConfiguration
  | DistributionPoint | DockItem | EBook | GSXConnection | IBeacon | JSSUser
  | LDAPServer | LicensedSoftware | MacApplication | ManagedPreferenceProfile
  | MobileDevice | MobileDeviceApplication | MobileDeviceCommand
  | MobileDeviceConfigurationProfile | MobileDeviceEnrollmentProfile
  | MobileDeviceExtensionAttribute | MobileDeviceInvitation | MobileDeviceGroup
  | MobileDeviceProvisioningProfile | NetbootServer | NetworkSegment
  | OSXConfigurationProfile | Package | Peripheral | PeripheralType | Policy
  | Printer | RestrictedSoftware | RemovableMACAddress | SavedSearch | Script
  | Site | SoftwareUpdateServer | SMTPServer | UserExtensionAttribute | User
  | UserGroup | VPPAccount.

#[global] Instance JSSClass_eq_dec : EqDecision JSSClass.
Proof. solve_decision. Defined.

(** [cls.__name__]. *)
Definition class_name (c : JSSClass) : string :=
  match c with
  | Account => "Account" | AccountGroup => "AccountGroup"
  | ActivationCode => "ActivationCode"
  | AdvancedComputerSearch => "AdvancedComputerSearch"
  | AdvancedMobileDeviceSearch => "AdvancedMobileDeviceSearch"
  | AdvancedUserSearch => "AdvancedUserSearch" | Building => "Building"
  | BYOProfile => "BYOProfile" | Category => "Category" | Class_ => "Class"
  | Computer => "Computer" | ComputerCheckIn => "ComputerCheckIn"
  | ComputerCommand => "ComputerCommand"
  | ComputerConfiguration => "ComputerConfiguration"
  | ComputerExtensionAttribute => "ComputerExtensionAttribute"
  | ComputerGroup => "ComputerGroup"
  | ComputerInventoryCollection => "ComputerInventoryCollection"
  | ComputerInvitation => "ComputerInvitation"
  | ComputerReport => "ComputerReport" | Department => "Department"
  | DirectoryBinding => "DirectoryBinding"
  | DiskEncryptionConfiguration => "DiskEncryptionConfiguration"
  | DistributionPoint => "DistributionPoint" | DockItem => "DockItem"
  | EBook => "EBook" | GSXConnection => "GSXConnection" | IBeacon => "IBeacon"
  | JSSUser => "JSSUser" | LDAPServer => "LDAPServer"
  | LicensedSoftware => "LicensedSoftware" | MacApplication => "MacApplication"
  | ManagedPreferenceProfile => "ManagedPreferenceProfile"
  | MobileDevice => "MobileDevice"
  | MobileDeviceApplication => "MobileDeviceApplication"
  | MobileDeviceCommand => "MobileDeviceCommand"
  | MobileDeviceConfigurationProfile => "MobileDeviceConfigurationProfile"
  | MobileDeviceEnrollmentProfile => "MobileDeviceEnrollmentProfile"
  | MobileDeviceExtensionAttribute => "MobileDeviceExtensionAttribute"
  | MobileDeviceInvitation => "MobileDeviceInvitation"
  | MobileDeviceGroup => "MobileDeviceGroup"
  | MobileDeviceProvisioningProfile => "MobileDeviceProvisioningProfile"
  | NetbootServer => "NetbootServer" | NetworkSegment => "NetworkSegment"
  | OSXConfigurationProfile => "OSXConfigurationProfile"
  | Package => "Package" | Peripheral => "Peripheral"
  | PeripheralType => "PeripheralType" | Policy => "Policy"
  | Printer => "Printer" | RestrictedSoftware => "RestrictedSoftware"
  | RemovableMACAddress => "RemovableMACAddress"
  | SavedSearch => "SavedSearch" | Script => "Script" | Site => "Site"
  | SoftwareUpdateServer => "SoftwareUpdateServer"
  | SMTPServer => "SMTPServer"
  | UserExtensionAttribute => "UserExtensionAttribute" | User => "User"
  | UserGroup => "UserGroup" | VPPAccount => "VPPAccount"
  end.

(** [a is b] on classes. *)
Definition class_is (a b : JSSClass) : bool := bool_decide (a = b).

(** The accessors of [JSS] that take a [subset] argument and pass it on; the
    others call the factory with the class and [data] alone. *)
Definition accessor_takes_subset (c : JSSClass) : bool :=
  match c with
  | Computer | EBook | MacApplication | ManagedPreferenceProfile
  | MobileDevice | MobileDeviceApplication
  | MobileDeviceConfigurationProfile | MobileDeviceEnrollmentProfile
  | MobileDeviceProvisioningProfile | OSXConfigurationProfile | Peripheral
  | Policy => true
  | _ => false
  end.

(** ** Python values the factory inspects by type *)

(** The [data] argument of [get_object], by the types the code tells apart:
    [None], [int] (which [bool] is a subclass of), [basestring], an
    [ElementTree.Element], and everything else. *)
Inductive Data : Type :=
  | DNone
  | DInt (n : Z)
  | DStr (s : string)
  | DElement (e : Element)
  | DOther.

(** The [subset] argument: [None], a [list] (of tags, which are strings), a
    [basestring], or a value of another type, of which only the truth value
    is ever used. *)
Inductive Subset : Type :=
  | SNone
  | SList (tags : list string)
  | SStr (s : string)
  | SOther (truth : bool).

(** Python's truth value of a [subset]: [if subset:]. *)
Definition truthy (subset : Subset) : bool :=
  match subset with
  | SNone => false
  | SList tags => negb (bool_decide (tags = []))
  | SStr s => negb (bool_decide (s = ""))
  | SOther b => b
  end.

(** ** Failures *)

Inductive exn : Type :=
  | JSSGetError (msg : string)
  | JSSPostError (msg : string)
  | JSSMethodNotAllowedError (msg : string)
  | TypeError
  | ValueError
  | AttributeError
  | IndexError
  | UnicodeDecodeError.

Inductive Result (A : Type) : Type :=
  | Ok (a : A)
  | Raise (e : exn).
Arguments Ok {A} a.
Arguments Raise {A} e.

(** The spec's Invalid-input failure: Python's [TypeError] and [ValueError]. *)
Definition invalid_input (e : exn) : bool :=
  match e with
  | TypeError | ValueError => true
  | _ => false
  end.

Definition method_not_allowed (e : exn) : bool :=
  match e with
  | JSSMethodNotAllowedError _ => true
  | _ => false
  end.

(** ** What the factory returns *)

(** Modelled from the spec: [jssobjectlist.JSSListData(obj_class, d, factory)],
    the flat tag-to-text record of one listed item. The module is not among
    the sources; the record keeps the constructor's arguments (the factory
    back-reference, always the one factory of the session, is left out). *)
Record JSSListData : Type := mkJSSListData {
  ld_class : JSSClass;
  ld_data : gmap string (option string)
}.

(** Modelled from the spec: [jssobjectlist.JSSObjectList(factory, obj_class,
    objects)], the heterogeneous collection of a listing. *)
Record JSSObjectList : Type := mkJSSObjectList {
  ol_class : JSSClass;
  ol_items : list JSSListData
}.

(** Modelled from the spec: [obj_class(jss, xmldata)], a resource object built
    from a server response; it holds its class and the response tree. *)
Record JSSObject : Type := mkJSSObject {
  obj_class : JSSClass;
  obj_data : Element
}.

Inductive Value : Type :=
  | VList (l : JSSObjectList)
  | VObject (o : JSSObject).

(** Modelled from the spec: the per-class descriptor that [jssobjects]
    declares (its class attributes and class methods, absent from the
    sources): the permitted verbs, the list-container tag (empty when the
    class has none), the URL builders, and the name of the class's own class,
    which [JSSMethodNotAllowedError] is raised with. *)
Record Descriptor : Type := mkDescriptor {
  can_list : bool;
  can_get : bool;
  can_post : bool;
  container : string;
  get_url : Data -> string;
  get_post_url : string;
  metaclass_name : string
}.

(** ** [JSSObjectFactory._build_jss_object_list] *)

(** [{i.tag: i.text for i in response_object}]: a later child with the same
    tag overwrites an earlier one. *)
Definition tag_text_dict (response_object : Element) : gmap string (option string) :=
  foldl (fun d i => <[elem_tag i := elem_text i]> d) ∅ (elem_children response_object).

(** [response] is [None] when [find] found no container; iterating over
    [None] is a [TypeError]. [item is not None] holds of every child. *)
Definition _build_jss_object_list (response : option Element) (obj_class : JSSClass)
  : Result Value :=
  match response with
  | None => Raise TypeError
  | Some response =>
      let response_objects :=
        List.filter (fun item => negb (bool_decide (elem_tag item = "size")))
                    (elem_children response) in
      let objects :=
        List.map (fun response_object =>
                    mkJSSListData obj_class (tag_text_dict response_object))
                 response_objects in
      Ok (VList (mkJSSObjectList obj_class objects))
  end.

(** ** Python 2 conversions the verbs rely on *)

Definition is_ascii_byte (c : ascii) : bool := (nat_of_ascii c <? 128)%nat.

Fixpoint is_ascii (s : string) : bool :=
  match s with
  | EmptyString => true
  | String c s' => is_ascii_byte c && is_ascii s'
  end.

(** [s.encode("utf_8")] on a byte string: Python 2 first decodes the string
    as ASCII, which raises [UnicodeDecodeError] on a byte of 128 or more; an
    ASCII string comes back as it is. *)
Definition encode_utf_8 (s : string) : Result string :=
  if is_ascii s then Ok s else Raise UnicodeDecodeError.

(** [sys.maxint], on a build whose C [long] has 64 bits. No proof below looks
    at its value. *)
Definition sys_maxint : Z := 9223372036854775807.

(** The value [int(s)] hands on for a string of digits that denotes [n]: an
    [int] up to [sys.maxint], and a [long] above it, which is neither an
    [int] nor a string for [isinstance]. *)
Definition int_data (n : Z) : Data :=
  if n <=? sys_maxint then DInt n else DOther.

(** ** The HTTP session and the monad of the verbs *)

Record Response : Type := mkResponse {
  status_code : Z;
  text : string
}.

Inductive Verb : Type := GET | POST.

(** One request on the wire: the verb, the full URL and the body sent. *)
Record Request : Type := mkRequest {
  req_verb : Verb;
  req_url : string;
  req_data : option string
}.

(** A [JSS] instance, as far as the verbs read it. *)
Record JSS : Type := mkJSS {
  _base_url : string;
  verbose : bool
}.

(** [JSS.__init__] and the [base_url] setter: the trailing slash goes. *)
Definition JSS_init (url : string) (verbose : bool) : JSS :=
  mkJSS (rstrip_slash url) verbose.

(** The [_url] property. *)
Definition _url (jss : JSS) : string := _base_url jss +:+ "/" +:+ "JSSResource".

Definition newline : string := String "010"%char "".

Section Session.

(** The management server behind [requests.Session]: a state and the answer
    it gives to each request. *)
Variable St : Type.
Variable serve : St -> Request -> St * Response.

(** [ElementTree.fromstring], [None] standing for its [ParseError], and
    [ElementTree.tostring]. *)
Variable fromstring : string -> option Element.
Variable tostring : Element -> string.

(** The message [tools.error_handler] builds from a failed response. *)
Variable error_message : Response -> string.

(** The descriptors of the classes of [jssobjects]. *)
Variable descr : JSSClass -> Descriptor.

(** The world a call runs in: the server, the requests sent so far and the
    lines printed so far, oldest first. *)
Record World : Type := mkWorld {
  server : St;
  sent : list Request;
  printed : list string
}.

Definition M (A : Type) : Type := World -> Result A * World.

Definition ret {A} (a : A) : M A := fun w => (Ok a, w).

Definition raise {A} (e : exn) : M A := fun w => (Raise e, w).

Definition bind {A B} (m : M A) (k : A -> M B) : M B :=
  fun w =>
    match m w with
    | (Ok a, w') => k a w'
    | (Raise e, w') => (Raise e, w')
    end.

Definition lift {A} (r : Result A) : M A := fun w => (r, w).

Notation "'let!' x ':=' m 'in' k" := (bind m (fun x => k))
  (at level 10, x name, m at level 200, k at level 200).
Notation "m ;; k" := (bind m (fun _ => k))
  (at level 100, k at level 200, right associativity).

(** [self.session.get(url)] and [self.session.post(url, data=data)]. *)
Definition session_request (r : Request) : M Response :=
  fun w =>
    let '(s', response) := serve (server w) r in
    (Ok response, mkWorld s' (sent w ++ [r]) (printed w)).

(** The [print] statement. *)
Definition print (line : string) : M unit :=
  fun w => (Ok tt, mkWorld (server w) (sent w) (printed w ++ [line])).

(** Modelled from the spec: [tools.error_handler(exception_cls, response)]
    builds a message from the response and raises the given failure kind
    with it. *)
Definition error_handler (exception_cls : string -> exn) (response : Response) : M unit :=
  raise (exception_cls (error_message response)).

(** [JSS.get]. *)
Definition JSS_get (jss : JSS) (url_path : string) : M Element :=
  let! encoded := lift (encode_utf_8 url_path) in
  let request_url := _url jss +:+ quote encoded in
  let! response := session_request (mkRequest GET request_url None) in
  (if (status_code response =? 200) && verbose jss then
     print ("GET " +:+ request_url +:+ ": Success.")
   else if status_code response >=? 400 then
     error_handler JSSGetError response
   else ret tt) ;;
  let jss_results := text response in
  match fromstring jss_results with
  | Some xmldata => ret xmldata
  | None => raise (JSSGetError ("Error Parsing XML:" +:+ newline +:+ jss_results))
  end.

(** The guard that opens [get_object]. Past it [subset] is a list of tags or
    a false value; every later use tests its truth first, so the empty list
    stands for all false values. *)
Definition normalize_subset (subset : Subset) : Result (list string) :=
  if truthy subset then
    match subset with
    | SList tags => Ok tags
    | SStr s => Ok (split "&" s)
    | _ => Raise TypeError
    end
  else Ok [].

(** [subset and len(subset) == 1 and subset[0].upper() == "BASIC"]. *)
Definition is_basic (subset : list string) : bool :=
  negb (bool_decide (subset = []))
  && bool_decide (length subset = 1%nat)
  && bool_decide (upper (nth 0 subset "") = "BASIC").

(** [if not "general" in subset: subset.append("general")]. The list appended
    to is the caller's own when the caller passed a list; nothing reads it
    again after the URL is built. *)
Definition force_general (subset : list string) : list string :=
  if bool_decide ("general" ∈ subset) then subset else subset ++ ["general"].

(** The URL of a by-identifier or by-name fetch. *)
Definition fetch_url (d : Descriptor) (data : Data) (subset : list string) : string :=
  let url := get_url d data in
  if negb (bool_decide (subset = [])) then
    url +:+ "/subset/" +:+ join "&" (force_general subset)
  else url.

(** The URL of a listing. *)
Definition list_url (obj_class : JSSClass) (subset : list string) : string :=
  let url := get_url (descr obj_class) DNone in
  if is_basic subset && class_is obj_class Computer then url +:+ "/subset/basic"
  else url.

(** [JSSObjectFactory.get_object], open in the [post] verb it delegates a
    creation to: [JSS.post] calls back into the factory with an integer, a
    branch that posts nothing, so the two are tied below without recursion. *)
Definition get_object_with
    (post : JSS -> JSSClass -> string -> Element -> M Value)
    (jss : JSS) (obj_class : JSSClass) (data : Data) (subset : Subset) : M Value :=
  let! subset := lift (normalize_subset subset) in
  let d := descr obj_class in
  match data with
  | DNone =>
      if can_list d && can_get d then
        let! result := JSS_get jss (list_url obj_class subset) in
        let result :=
          if negb (bool_decide (container d = "")) then find (container d) result
          else Some result in
        lift (_build_jss_object_list result obj_class)
      else if can_get d then
        let! xmldata := JSS_get jss (get_url d data) in
        ret (VObject (mkJSSObject obj_class xmldata))
      else raise (JSSMethodNotAllowedError (metaclass_name d))
  | DInt _ | DStr _ =>
      if can_get d then
        let! xmldata := JSS_get jss (fetch_url d data subset) in
        match find "size" xmldata with
        | Some _ => lift (_build_jss_object_list (Some xmldata) obj_class)
        | None => ret (VObject (mkJSSObject obj_class xmldata))
        end
      else raise (JSSMethodNotAllowedError (metaclass_name d))
  | DElement e =>
      if can_post d then post jss obj_class (get_post_url d) e
      else raise (JSSMethodNotAllowedError (metaclass_name d))
  | DOther => raise ValueError
  end.

(** [JSS.post], over the factory it re-fetches with. *)
Definition JSS_post_with
    (get_object : JSS -> JSSClass -> Data -> Subset -> M Value)
    (jss : JSS) (obj_class : JSSClass) (url_path : string) (data : Element) : M Value :=
  let request_url := _url jss +:+ url_path in
  let data := tostring data in
  let! response := session_request (mkRequest POST request_url (Some data)) in
  (if (status_code response =? 201) && verbose jss then
     print ("POST " +:+ request_url +:+ ": Success")
   else if status_code response >=? 400 then
     error_handler JSSPostError response
   else ret tt) ;;
  let jss_results := text response in
  match re_search_id jss_results with
  | Some group1 => get_object jss obj_class (int_data (int_of_digits group1)) SNone
  | None => raise AttributeError
  end.

(** The factory call inside [JSS.post]: its argument is an [int] or a [long],
    so the [post] it is given is never called. *)
Definition unreachable_post (jss : JSS) (obj_class : JSSClass) (url_path : string)
    (data : Element) : M Value := raise AttributeError.

(** [JSS.post]. *)
Definition JSS_post : JSS -> JSSClass -> string -> Element -> M Value :=
  JSS_post_with (get_object_with unreachable_post).

(** [JSSObjectFactory.get_object]. *)
Definition get_object : JSS -> JSSClass -> Data -> Subset -> M Value :=
  get_object_with JSS_post.

(** The accessors [JSS.Account], [JSS.Computer], ...: pure delegation, with
    [subset] passed on by the accessors that take one. *)
Definition accessor (jss : JSS) (obj_class : JSSClass) (data : Data) (subset : Subset)
  : M Value :=
  if accessor_takes_subset obj_class then get_object jss obj_class data subset
  else get_object jss obj_class data SNone.

(** The world after [JSS.post] has sent its request and, on a 201 in verbose
    mode, printed its line. *)
Definition after_post (jss : JSS) (url_path : string) (data : Element)
    (response : Response) (s' : St) (w : World) : World :=
  mkWorld s'
    (sent w ++ [mkRequest POST (_url jss +:+ url_path) (Some (tostring data))])
    (printed w ++
       if verbose jss then ["POST " +:+ (_url jss +:+ url_path) +:+ ": Success"] else []).

End Session.

Arguments mkWorld {St} _ _ _.
Arguments server {St} _.
Arguments sent {St} _.
Arguments printed {St} _.

(** ** [queryset.QuerySet] *)

(** The [cached] attribute of a member: [None] (what [invalidate] writes), a
    [bool], or the [datetime] of the last fetch (as a time stamp). *)
Inductive Marker : Type :=
  | MNone
  | MBool (b : bool)
  | MDatetime (t : Z).

(** A member of a QuerySet, as far as the QuerySet reads it: its class, the
    text of its [id] ([str(item.id)]), its [name] and its [cached] marker. *)
Record Member : Type := mkMember {
  m_class : JSSClass;
  m_id : string;
  m_name : string;
  m_cached : Marker
}.

(** A QuerySet object: the list it is, and its [contained_class] attribute,
    absent until [__init__] sets it. *)
Record QuerySet : Type := mkQuerySet {
  qs_items : list Member;
  contained_class : option JSSClass
}.

(** The object [list.__new__] hands to [__init__]: an empty list. *)
Definition QuerySet_blank : QuerySet := mkQuerySet [] None.

(** [{i.__class__ for i in objects}]: the classes met, each once. *)
Definition class_set (objects : list Member) : list JSSClass :=
  remove_dups (List.map m_class objects).

(** [QuerySet.__init__(self, objects)]: the outcome and [self] afterwards. *)
Definition QuerySet_init (self : QuerySet) (objects : list Member)
  : Result unit * QuerySet :=
  if negb (bool_decide (length (class_set objects) = 1%nat)) then
    (Raise ValueError, self)
  else
    let self := mkQuerySet objects (contained_class self) in
    match qs_items self with
    | first :: _ => (Ok tt, mkQuerySet (qs_items self) (Some (m_class first)))
    | [] => (Raise IndexError, self)
    end.

(** [QuerySet(objects)]. *)
Definition QuerySet_new (objects : list Member) : Result QuerySet :=
  match QuerySet_init QuerySet_blank objects with
  | (Ok _, self) => Ok self
  | (Raise e, _) => Raise e
  end.

(** [STR_FMT.format(a, wa, b, wb, c, wc)]. *)
Definition STR_FMT (a : string) (wa : nat) (b : string) (wb : nat) (c : string) (wc : nat)
  : string :=
  rjust a wa +:+ " | " +:+ rjust b wb +:+ " | " +:+ rjust c wc.

Fixpoint repeat_char (c : ascii) (n : nat) : string :=
  match n with
  | O => ""
  | S n' => String c (repeat_char c n')
  end.

(** [str(item.cached if isinstance(item.cached, bool) else 'True')]. *)
Definition cached_text (item : Member) : string :=
  match m_cached item with
  | MBool true => "True"
  | MBool false => "False"
  | _ => "True"
  end.

Definition cache_max : nat := String.length "Cached".

Definition name_max (self : QuerySet) : nat :=
  max_list (List.map (fun item => String.length (m_name item)) (qs_items self)).

Definition id_max (self : QuerySet) : nat :=
  max_list (List.map (fun item => String.length (m_id item)) (qs_items self)).

(** The line of one member in the table. *)
Definition item_row (self : QuerySet) (item : Member) : string :=
  STR_FMT (m_id item) (id_max self) (m_name item) (name_max self)
          (cached_text item) cache_max.

(** The list [results] that [__str__] joins: [max] of no member is a
    [ValueError], a missing [contained_class] an [AttributeError]. *)
Definition QuerySet_results (self : QuerySet) : Result (list string) :=
  match qs_items self with
  | [] => Raise ValueError
  | _ :: _ =>
      match contained_class self with
      | None => Raise AttributeError
      | Some cls =>
          let lbl := STR_FMT "ID" (id_max self) "Name" (name_max self)
                             "Cached" cache_max in
          let bar := repeat_char "-" (String.length lbl) in
          Ok ([class_name cls +:+ " QuerySet"] ++ [bar; lbl; bar]
              ++ List.map (item_row self) (qs_items self))
      end
  end.

(** [QuerySet.__str__]. *)
Definition QuerySet_str (self : QuerySet) : Result string :=
  match QuerySet_results self with
  | Ok results => Ok (join newline results)
  | Raise e => Raise e
  end.

(** [QuerySet.invalidate]: every member's marker becomes [None]. *)
Definition QuerySet_invalidate (self : QuerySet) : QuerySet :=
  mkQuerySet
    (List.map (fun i => mkMember (m_class i) (m_id i) (m_name i) MNone) (qs_items self))
    (contained_class self).

(** ** [list.sort(key=...)] and the sorting methods of the QuerySet *)

Section StableSort.

Context {A K : Type}.
Variable leb : K -> K -> bool.
Variable key : A -> K.

(** [x] goes in front of the first element whose key is not below its own. *)
Fixpoint insert_by (x : A) (l : list A) : list A :=
  match l with
  | [] => [x]
  | y :: l' => if leb (key x) (key y) then x :: y :: l' else y :: insert_by x l'
  end.

(** [l.sort(key=key)]. Python's sort is stable, and a list has only one
    stable ordering by a total order on the keys, so this insertion sort
    leaves the list that Python's sort leaves. *)
Definition list_sort_by (l : list A) : list A := foldr insert_by [] l.

(** The elements of [l] whose key is [k], up to the order on keys. *)
Definition with_key (k : K) (l : list A) : list A :=
  List.filter (fun a => leb (key a) k && leb k (key a)) l.

End StableSort.

(** [QuerySet.sort_by_name]: [key=lambda k: k.name.upper()], byte strings
    compared as Python compares them, byte by byte. *)
Definition QuerySet_sort_by_name (self : QuerySet) : QuerySet :=
  mkQuerySet
    (list_sort_by String.leb (fun k => upper (m_name k)) (qs_items self))
    (contained_class self).

Section QuerySetSort.

(** Python's [int], applied to the [id] of a member. *)
Variable py_int : string -> Result Z.

(** The keys [int(k.id)], computed for every member, in order, before any
    member moves; the first failure ends the computation. *)
Fixpoint decorate (l : list Member) : Result (list (Z * Member)) :=
  match l with
  | [] => Ok []
  | k :: l' =>
      match py_int (m_id k) with
      | Raise e => Raise e
      | Ok n =>
          match decorate l' with
          | Raise e => Raise e
          | Ok d => Ok ((n, k) :: d)
          end
      end
  end.

(** [QuerySet.sort]: [key=lambda k: int(k.id)]. When a key cannot be
    computed the list is left as it was and the failure is raised. *)
Definition QuerySet_sort (self : QuerySet) : Result unit * QuerySet :=
  match decorate (qs_items self) with
  | Raise e => (Raise e, self)
  | Ok d =>
      (Ok tt, mkQuerySet (List.map snd (list_sort_by Z.leb fst d)) (contained_class self))
  end.

End QuerySetSort.

(** The last byte of a string. *)
Fixpoint last_char (s : string) : option ascii :=
  match s with
  | EmptyString => None
  | String c EmptyString => Some c
  | String _ s' => last_char s'
  end.

(** The lines [JSS.get] and [JSS.post] print for a response: one on the
    announced status in verbose mode, none otherwise. *)
Definition announced (jss : JSS) (status : Z) (response : Response) (line : string)
  : list string :=
  if (status_code response =? status) && verbose jss then [line] else [].

(** ** The vocabulary of the properties *)

(** [s.lower()] on a byte string. *)
Fixpoint lower (s : string) : string :=
  match s with
  | EmptyString => EmptyString
  | String c s' => String (ascii_lower c) (lower s')
  end.

(** Equal but for the case of the letters. *)
Definition caseless_eq (a b : string) : Prop := lower a = lower b.

(** A by-identifier or by-name fetch: [data] is an [int] or a string. *)
Definition is_fetch (data : Data) : bool :=
  match data with
  | DInt _ | DStr _ => true
  | _ => false
  end.

(** The request [JSS.get] puts on the wire for a path. *)
Definition get_request (jss : JSS) (url_path : string) : Request :=
  mkRequest GET (_url jss +:+ quote url_path) None.

(** The requests [JSS.get] sends for a path: one, unless encoding the path
    fails. *)
Definition wire_requests (jss : JSS) (url_path : string) : list Request :=
  if is_ascii url_path then [get_request jss url_path] else [].

(** The number a string of digits denotes, digit by digit with its power of
    ten. *)
Fixpoint decimal_value (s : string) : Z :=
  match s with
  | EmptyString => 0
  | String c s' => digit_value c * 10 ^ Z.of_nat (String.length s') + decimal_value s'
  end.

(** [s.endswith(suffix)]. *)
Definition ends_with (suffix s : string) : bool :=
  match strip_prefix (String.rev suffix) (String.rev s) with
  | Some _ => true
  | None => false
  end.

(** The record of one listed element, as the list builder makes it. *)
Definition list_record (obj_class : JSSClass) (response_object : Element) : JSSListData :=
  mkJSSListData obj_class (tag_text_dict response_object).

(** The text of the last child of [e] tagged [t]. *)
Definition last_text (t : string) (e : Element) : option (option string) :=
  elem_text <$> last (List.filter (fun c => bool_decide (elem_tag c = t)) (elem_children e)).

(** A sequence of one class: any two members have the same class. *)
Definition single_class (objects : list Member) : Prop :=
  forall a b, a ∈ objects -> b ∈ objects -> m_class a = m_class b.

(** A sequence that mixes two classes. *)
Definition mixed_classes (objects : list Member) : Prop :=
  exists a b, a ∈ objects /\ b ∈ objects /\ m_class a <> m_class b.

(** What a call did to the world, within a budget of [n] requests: it added
    at most [n] requests to the log and at most one printed line per request,
    none at all when the session is not verbose, and took nothing away. *)
Definition footprint {St : Type} (n : nat) (jss : JSS) (w w' : World St) : Prop :=
  exists reqs lines,
    sent w' = sent w ++ reqs /\ printed w' = printed w ++ lines
    /\ (length reqs <= n)%nat /\ (length lines <= length reqs)%nat
    /\ (verbose jss = false -> lines = []).

(** [l] is in the order of its keys: no element has a key above the key of
    an element after it. *)
Definition ordered_by {A K : Type} (leb : K -> K -> bool) (key : A -> K) (l : list A)
  : Prop :=
  StronglySorted (fun a b => leb (key a) (key b) = true) l.

(** [l'] keeps the elements of each key in the order [l] has them. *)
Definition stable_for {A K : Type} (leb : K -> K -> bool) (key : A -> K) (l l' : list A)
  : Prop :=
  forall k, with_key leb key k l' = with_key leb key k l.

(** The sort key of [sort_by_name]. *)
Definition name_key (k : Member) : string := upper (m_name k).

(** Every byte of [s] passes [p]. *)
Fixpoint all_bytes (p : ascii -> bool) (s : string) : bool :=
  match s with
  | EmptyString => true
  | String c s' => p c && all_bytes p s'
  end.

(** The bytes [urllib.quote] can leave in its result. *)
Definition quoted_byte (c : ascii) : bool := quote_safe c || bool_decide (c = "%"%char).

(** ** A sample server

    A small management server, parser and descriptor table on which the verbs
    can be evaluated. The table is a sample, not the one of [jssobjects]. *)

Module Sample.

Definition string_of_Z (n : Z) : string := NilZero.string_of_int (Z.to_int n).

Definition url_segment (c : JSSClass) : string :=
  match c with
  | Computer => "/computers"
  | ActivationCode => "/activationcode"
  | Policy => "/policies"
  | c => "/" +:+ class_name c
  end.

Definition sample_get_url (c : JSSClass) (data : Data) : string :=
  match data with
  | DInt n => url_segment c +:+ "/id/" +:+ string_of_Z n
  | DStr s => url_segment c +:+ "/name/" +:+ s
  | _ => url_segment c
  end.

(** [ActivationCode] is a single object without a listing; [LDAPServer]
    stands for a class that permits no GET at all. *)
Definition descr (c : JSSClass) : Descriptor :=
  match c with
  | ActivationCode =>
      mkDescriptor false true false "" (sample_get_url c) (url_segment c +:+ "/id/0") "type"
  | LDAPServer =>
      mkDescriptor true false true "" (sample_get_url c) (url_segment c +:+ "/id/0") "type"
  | c =>
      mkDescriptor true true true "" (sample_get_url c) (url_segment c +:+ "/id/0") "type"
  end.

Definition leaf (t x : string) : Element := mkElement t (Some x) [].

Definition summary (t i n : string) : Element :=
  mkElement t None [leaf "id" i; leaf "name" n].

Definition body_list : string :=
  "<computers><size>2</size><computer><id>1</id><name>alpha</name></computer><computer><id>2</id><name>beta</name></computer></computers>".

Definition tree_list : Element :=
  mkElement "computers" None
    [leaf "size" "2"; summary "computer" "1" "alpha"; summary "computer" "2" "beta"].

Definition body_one : string :=
  "<computer><general><id>42</id><name>gamma</name></general></computer>".

Definition tree_one : Element :=
  mkElement "computer" None [mkElement "general" None [leaf "id" "42"; leaf "name" "gamma"]].

Definition body_code : string :=
  "<activation_code><organization_name>ACME</organization_name><code>ABCD</code></activation_code>".

Definition tree_code : Element :=
  mkElement "activation_code" None [leaf "organization_name" "ACME"; leaf "code" "ABCD"].

Definition body_created : string := "<computer><id>42</id></computer>".

Definition fromstring (s : string) : option Element :=
  if bool_decide (s = body_list) then Some tree_list
  else if bool_decide (s = body_one) then Some tree_one
  else if bool_decide (s = body_code) then Some tree_code
  else None.

Fixpoint tostring (e : Element) : string :=
  match e with
  | mkElement t x cs =>
      "<" +:+ t +:+ ">" +:+ default "" x
      +:+ (fix go (l : list Element) : string :=
             match l with
             | [] => ""
             | c :: l' => tostring c +:+ go l'
             end) cs
      +:+ "</" +:+ t +:+ ">"
  end.

Definition error_message (r : Response) : string := string_of_Z (status_code r).

Definition root : string := "https://jss.example.org:8443/JSSResource".

(** The server remembers the identifiers it has created; computer 42 exists
    once it has been posted. *)
Definition serve (st : list Z) (r : Request) : list Z * Response :=
  match req_verb r with
  | POST => (42 :: st, mkResponse 201 body_created)
  | GET =>
      let u := req_url r in
      if bool_decide (u = root +:+ "/computers") then (st, mkResponse 200 body_list)
      else if bool_decide (u = root +:+ "/computers/subset/basic") then
        (st, mkResponse 200 body_list)
      else if bool_decide (u = root +:+ "/computers/name/MacBook%20Pro") then
        (st, mkResponse 200 body_list)
      else if bool_decide (u = root +:+ "/activationcode") then
        (st, mkResponse 200 body_code)
      else if bool_decide (u = root +:+ "/computers/id/42")
              || bool_decide (u = root +:+ "/computers/id/42/subset/purchasing%26general") then
        if bool_decide (42 ∈ st) then (st, mkResponse 200 body_one)
        else (st, mkResponse 404 "")
      else (st, mkResponse 404 "")
  end.

Definition jss : JSS := JSS_init "https://jss.example.org:8443/" false.

Definition fresh : World (list Z) := mkWorld [] [] [].

Definition stocked : World (list Z) := mkWorld [42] [] [].

Definition factory_get_object : JSS -> JSSClass -> Data -> Subset -> M (list Z) Value :=
  get_object (list Z) serve fromstring tostring error_message descr.

Definition jss_post : JSS -> JSSClass -> string -> Element -> M (list Z) Value :=
  JSS_post (list Z) serve fromstring tostring error_message descr.

Definition jss_get : JSS -> string -> M (list Z) Element :=
  JSS_get (list Z) serve fromstring error_message.

Definition jss_accessor : JSS -> JSSClass -> Data -> Subset -> M (list Z) Value :=
  accessor (list Z) serve fromstring tostring error_message descr.

Definition item (i n : string) : JSSListData :=
  mkJSSListData Computer (<["name" := Some n]> (<["id" := Some i]> ∅)).

Definition alpha : Member := mkMember Computer "1" "alpha" MNone.
Definition beta : Member := mkMember Computer "22" "Beta" (MBool false).
Definition gamma : Member := mkMember Computer "3" "gamma" (MDatetime 1500000000).
Definition policy : Member := mkMember Policy "7" "patch" (MBool false).

Definition computers : QuerySet := mkQuerySet [alpha; beta; gamma] (Some Computer).

End Sample.

(** More sample data: an integer reader for identifiers written in digits,
    and members whose identifiers and names are out of order. *)

Module SampleMore.

Definition py_int (s : string) : Result Z :=
  match s with
  | EmptyString => Raise ValueError
  | _ => if all_digits s then Ok (int_of_digits s) else Raise ValueError
  end.

Definition m10 : Member := mkMember Computer "10" "beta" (MBool false).
Definition m9 : Member := mkMember Computer "9" "Alpha" (MDatetime 1500000000).
Definition m2 : Member := mkMember Computer "2" "gamma" MNone.
Definition m3 : Member := mkMember Computer "3" "ALPHA" (MBool false).
Definition unsaved : Member := mkMember Computer "None" "new" (MBool false).

Definition unsorted : QuerySet := mkQuerySet [m10; m9; m2; m3] (Some Computer).

(** A class that may be created but not fetched. *)
Definition descr (c : JSSClass) : Descriptor :=
  match c with
  | Computer => mkDescriptor true false true "" (Sample.sample_get_url c) "/computers/id/0" "type"
  | Policy =>
      mkDescriptor true true true "policies" (Sample.sample_get_url c) "/policies/id/0" "type"
  | c => Sample.descr c
  end.

Definition wrapped : Element :=
  mkElement "response" None
    [mkElement "policies" None
       [Sample.leaf "size" "1"; Sample.summary "policy" "7" "patch"]].

Definition fromstring (s : string) : option Element :=
  if bool_decide (s = "wrapped") then Some wrapped
  else if bool_decide (s = "bare") then Some Sample.tree_list
  else None.

(** A server that answers every GET with the body its state holds, and
    every POST with a 200 and no identifier. *)
Definition serve (st : string) (r : Request) : string * Response :=
  match req_verb r with
  | GET => (st, mkResponse 200 st)
  | POST => (st, mkResponse 200 "<computer><name>gamma</name></computer>")
  end.

(** A server that refuses every request with a 409. *)
Definition refusing (st : unit) (r : Request) : unit * Response :=
  (tt, mkResponse 409 "Conflict").

Definition created_1207 : string := "<computer><id>1207</id></computer>".

Definition body_1207 : string :=
  "<computer><general><id>1207</id><name>delta</name></general></computer>".

Definition tree_1207 : Element :=
  mkElement "computer" None
    [mkElement "general" None [Sample.leaf "id" "1207"; Sample.leaf "name" "delta"]].

Definition parse (s : string) : option Element :=
  if bool_decide (s = body_1207) then Some tree_1207 else None.

(** A server that creates computer 1207 on a POST, answers with a 201, and
    serves the computer from then on. *)
Definition registrar (st : list Z) (r : Request) : list Z * Response :=
  match req_verb r with
  | POST => (1207 :: st, mkResponse 201 created_1207)
  | GET =>
      if bool_decide (req_url r = Sample.root +:+ "/computers/id/1207")
         && bool_decide (1207 ∈ st)
      then (st, mkResponse 200 body_1207)
      else (st, mkResponse 404 "")
  end.

(** A server that answers a POST with a 200 carrying the new identifier, and
    a GET with the full object. *)
Definition lenient (st : unit) (r : Request) : unit * Response :=
  match req_verb r with
  | POST => (tt, mkResponse 200 created_1207)
  | GET => (tt, mkResponse 200 body_1207)
  end.

(** A server whose new identifier is one above [sys.maxint]. *)
Definition overflowing (st : unit) (r : Request) : unit * Response :=
  (tt, mkResponse 201 "<computer><id>9223372036854775808</id></computer>").

Definition by_digits (k : Member) : Z := int_of_digits (m_id k).

End SampleMore.

(** * Properties *)

(** ** Byte strings *)

Lemma append_cons (c : ascii) (s t : string) : String c s +:+ t = String c (s +:+ t).
Proof. reflexivity. Qed.

Lemma append_nil_r (s : string) : s +:+ "" = s.
Proof. induction s as [|c s IH]; [reflexivity|]. by rewrite append_cons, IH. Qed.

Lemma append_assoc (s t u : string) : (s +:+ t) +:+ u = s +:+ (t +:+ u).
Proof. induction s as [|c s IH]; [reflexivity|]. by rewrite !append_cons, IH. Qed.

Lemma length_append (s t : string) :
  String.length (s +:+ t) = (String.length s + String.length t)%nat.
Proof. induction s as [|c s IH]; [reflexivity|]. rewrite append_cons. simpl. by rewrite IH. Qed.

Lemma append_eq_self (s t : string) : s +:+ t = s -> t = "".
Proof.
  intros H. apply (f_equal String.length) in H. rewrite length_append in H.
  destruct t; [reflexivity|]. simpl in H. lia.
Qed.

Lemma split_nonempty (sep : ascii) (s : string) : split sep s <> [].
Proof.
  destruct s as [|c s]; simpl; [discriminate|].
  case_bool_decide; [discriminate|]. destruct (split sep s); discriminate.
Qed.

Lemma join_concat (sep : string) (l : list string) : join sep l = String.concat sep l.
Proof.
  induction l as [|x l IH]; [reflexivity|]. destruct l as [|y l]; [reflexivity|].
  change (join sep (x :: y :: l)) with (x +:+ sep +:+ join sep (y :: l)).
  by rewrite IH.
Qed.

Lemma is_ascii_app (a b : string) : is_ascii (a +:+ b) = is_ascii a && is_ascii b.
Proof.
  induction a as [|c a IH]; [reflexivity|].
  rewrite append_cons. cbn [is_ascii]. by rewrite IH, andb_assoc.
Qed.

Lemma is_ascii_join (sep : string) (l : list string) :
  is_ascii sep = true -> Forall (fun t => is_ascii t = true) l ->
  is_ascii (join sep l) = true.
Proof.
  intros Hsep. induction 1 as [|x l Hx Hl IH]; [reflexivity|].
  destruct l as [|y l]; [done|].
  change (join sep (x :: y :: l)) with (x +:+ sep +:+ join sep (y :: l)).
  by rewrite !is_ascii_app, Hx, Hsep, IH.
Qed.

Lemma is_ascii_join_elem (sep : string) (l : list string) (t : string) :
  t ∈ l -> is_ascii t = false -> is_ascii (join sep l) = false.
Proof.
  intros Hin Ht. induction l as [|x l IH]; [by apply elem_of_nil in Hin|].
  destruct l as [|y l].
  - apply list_elem_of_singleton in Hin as ->. done.
  - change (join sep (x :: y :: l)) with (x +:+ sep +:+ join sep (y :: l)).
    rewrite !is_ascii_app. apply elem_of_cons in Hin as [->|Hin].
    + by rewrite Ht.
    + rewrite (IH Hin). by rewrite !andb_false_r.
Qed.

Lemma quote_app (a b : string) : quote (a +:+ b) = quote a +:+ quote b.
Proof.
  induction a as [|c a IH]; [reflexivity|]. rewrite append_cons. simpl.
  destruct (quote_safe c); by rewrite ?append_cons, IH.
Qed.

Lemma quote_join (l : list string) : quote (join "&" l) = join "%26" (quote <$> l).
Proof.
  induction l as [|x l IH]; [reflexivity|]. destruct l as [|y l]; [reflexivity|].
  change (join "&" (x :: y :: l)) with (x +:+ "&" +:+ join "&" (y :: l)).
  change (join "%26" (quote <$> x :: y :: l))
    with (quote x +:+ "%26" +:+ join "%26" (quote <$> y :: l)).
  by rewrite !quote_app, IH.
Qed.

Lemma int_of_digits_from_decimal (acc : Z) (s : string) :
  int_of_digits_from acc s = acc * 10 ^ Z.of_nat (String.length s) + decimal_value s.
Proof.
  revert acc. induction s as [|c s IH]; intros acc.
  - simpl. lia.
  - cbn [int_of_digits_from decimal_value String.length]. rewrite IH.
    rewrite Nat2Z.inj_succ, Z.pow_succ_r by lia. ring.
Qed.

(** [int_of_digits] gives the number the digits denote. *)
Lemma int_of_digits_decimal (s : string) : int_of_digits s = decimal_value s.
Proof. unfold int_of_digits. rewrite int_of_digits_from_decimal. lia. Qed.

(** ** The pattern of [JSS.post] *)

Lemma strip_prefix_spec (p s r : string) : strip_prefix p s = Some r <-> s = p +:+ r.
Proof.
  revert s. induction p as [|a p IH]; intros s; simpl.
  - split; [by intros [= ->] | by intros ->].
  - destruct s as [|b s]; [split; [done | by rewrite append_cons]|].
    rewrite append_cons. case_bool_decide as Hab.
    + subst b. rewrite IH. split; [by intros -> | by intros [= ->]].
    + split; [done | intros [= ? _]; congruence].
Qed.

Lemma span_digits_app (d r : string) :
  all_digits d = true ->
  (forall c r', r = String c r' -> is_digit c = false) ->
  span_digits (d +:+ r) = (d, r).
Proof.
  intros Hd Hr. induction d as [|c d IH].
  - change ("" +:+ r) with r. destruct r as [|c r']; [reflexivity|].
    simpl. by rewrite (Hr c r' eq_refl).
  - simpl in Hd. apply andb_true_iff in Hd as [Hc Hd].
    rewrite append_cons. simpl. by rewrite Hc, (IH Hd).
Qed.

Lemma span_digits_spec (s d r : string) :
  span_digits s = (d, r) -> s = d +:+ r /\ all_digits d = true.
Proof.
  revert d r. induction s as [|c s IH]; intros d r; simpl.
  - by intros [= <- <-].
  - destruct (is_digit c) eqn:Hc.
    + destruct (span_digits s) as [d' r'] eqn:Hs. intros [= <- <-].
      destruct (IH d' r' eq_refl) as [-> Hd]. split; [by rewrite append_cons|].
      simpl. by rewrite Hc, Hd.
    + by intros [= <- <-].
Qed.

Lemma match_id_here_spec (s d : string) :
  match_id_here s = Some d <-> exists post, id_match "" d post s.
Proof.
  unfold match_id_here, id_match. split.
  - destruct (strip_prefix "<id>" s) as [r|] eqn:Hp; [|done].
    apply strip_prefix_spec in Hp as ->.
    destruct (span_digits r) as [d' r'] eqn:Hs.
    apply span_digits_spec in Hs as [-> Hd].
    destruct d' as [|c d']; [done|].
    destruct (strip_prefix "</id>" r') as [post|] eqn:Hq; [|done].
    apply strip_prefix_spec in Hq as ->. intros [= <-]. by exists post.
  - intros (post & -> & Hne & Hd).
    change ("" +:+ "<id>" +:+ d +:+ "</id>" +:+ post)
      with ("<id>" +:+ d +:+ "</id>" +:+ post).
    assert (strip_prefix "<id>" ("<id>" +:+ d +:+ "</id>" +:+ post)
            = Some (d +:+ "</id>" +:+ post)) as -> by by apply strip_prefix_spec.
    rewrite span_digits_app; [|done|].
    + destruct d; [done|].
      by assert (strip_prefix "</id>" ("</id>" +:+ post) = Some post) as ->
        by by apply strip_prefix_spec.
    + by intros c r' [= <- _].
Qed.

(** [re_search_id] finds an occurrence of the pattern, and none starts
    before the one it finds. *)
Lemma re_search_id_sound (s d : string) :
  re_search_id s = Some d ->
  exists pre post,
    id_match pre d post s /\
    forall pre' d' post', id_match pre' d' post' s ->
      (String.length pre <= String.length pre')%nat.
Proof.
  induction s as [|c s IH].
  - intros H. vm_compute in H. done.
  - cbn [re_search_id]. destruct (match_id_here (String c s)) as [d'|] eqn:Hm.
    + intros [= ->]. apply match_id_here_spec in Hm as [post Hm].
      exists "", post. split; [done|]. intros. simpl. lia.
    + intros Hs. destruct (IH Hs) as (pre & post & (-> & Hne & Hd) & Hleft).
      exists (String c pre), post. split; [by rewrite append_cons|].
      intros pre' d' post' (Heq & Hne' & Hd').
      destruct pre' as [|c' pre'].
      * assert (match_id_here (String c (pre +:+ "<id>" +:+ d +:+ "</id>" +:+ post))
                = Some d') as Hm'
          by (apply match_id_here_spec; by exists post').
        congruence.
      * rewrite append_cons in Heq. injection Heq as -> Heq.
        specialize (Hleft pre' d' post' (conj Heq (conj Hne' Hd'))). simpl. lia.
Qed.

(** Wherever the pattern occurs in [s], the search succeeds. *)
Lemma re_search_id_complete (s pre d post : string) :
  id_match pre d post s -> is_Some (re_search_id s).
Proof.
  revert s. induction pre as [|c pre IH]; intros s Hm.
  - assert (match_id_here s = Some d) as Hh
      by (apply match_id_here_spec; by exists post).
    destruct s; cbn [re_search_id]; rewrite Hh; by eexists.
  - destruct Hm as (-> & Hne & Hd). rewrite append_cons. cbn [re_search_id].
    destruct (match_id_here _); [by eexists|]. by apply IH.
Qed.

(** ** Letter case *)

Lemma caseless_char (c : ascii) :
  Ascii.eqb (ascii_upper c) "B" = Ascii.eqb (ascii_lower c) "b"
  /\ Ascii.eqb (ascii_upper c) "A" = Ascii.eqb (ascii_lower c) "a"
  /\ Ascii.eqb (ascii_upper c) "S" = Ascii.eqb (ascii_lower c) "s"
  /\ Ascii.eqb (ascii_upper c) "I" = Ascii.eqb (ascii_lower c) "i"
  /\ Ascii.eqb (ascii_upper c) "C" = Ascii.eqb (ascii_lower c) "c".
Proof. destruct c as [[] [] [] [] [] [] [] []]; vm_compute; repeat split. Qed.

Lemma upper_basic_eqb (t : string) :
  String.eqb (upper t) "BASIC" = String.eqb (lower t) "basic".
Proof.
  destruct t as [|c1 [|c2 [|c3 [|c4 [|c5 t]]]]]; simpl; try reflexivity.
  all: destruct (caseless_char c1) as (-> & _).
  all: destruct (Ascii.eqb (ascii_lower c1) "b"); try reflexivity.
  all: destruct (caseless_char c2) as (_ & -> & _).
  all: destruct (Ascii.eqb (ascii_lower c2) "a"); try reflexivity.
  all: destruct (caseless_char c3) as (_ & _ & -> & _).
  all: destruct (Ascii.eqb (ascii_lower c3) "s"); try reflexivity.
  all: destruct (caseless_char c4) as (_ & _ & _ & -> & _).
  all: destruct (Ascii.eqb (ascii_lower c4) "i"); try reflexivity.
  destruct (caseless_char c5) as (_ & _ & _ & _ & ->).
  destruct (Ascii.eqb (ascii_lower c5) "c"); [|reflexivity].
  by destruct t.
Qed.

(** Upper-casing a tag gives ["BASIC"] exactly when the tag is ["basic"] but
    for the case of its letters. *)
Lemma upper_basic_iff (t : string) : upper t = "BASIC" <-> caseless_eq t "basic".
Proof.
  unfold caseless_eq. change (lower "basic") with "basic".
  rewrite <- !String.eqb_eq. by rewrite upper_basic_eqb.
Qed.

(** ** The list builder *)

Lemma tag_text_dict_foldl (d : gmap string (option string)) (l : list Element) (t : string) :
  foldl (fun d i => <[elem_tag i := elem_text i]> d) d l !! t
  = match last (List.filter (fun c => bool_decide (elem_tag c = t)) l) with
    | Some c => Some (elem_text c)
    | None => d !! t
    end.
Proof.
  revert d. induction l as [|c l IH]; intros d; [reflexivity|].
  cbn [foldl List.filter]. rewrite IH. case_bool_decide as Ht.
  - destruct (List.filter _ l) as [|c' l'] eqn:Hf.
    + simpl. by rewrite Ht, lookup_insert_eq.
    + rewrite last_cons_cons. destruct (last (c' :: l')) eqn:Hl; [done|].
      by apply last_None in Hl.
  - destruct (last _); [done|]. by rewrite lookup_insert_ne.
Qed.

(** Each record is flat: a tag maps to the text of the last child with it. *)
Lemma tag_text_dict_lookup (e : Element) (t : string) :
  tag_text_dict e !! t = last_text t e.
Proof.
  unfold tag_text_dict, last_text. rewrite tag_text_dict_foldl.
  by destruct (last _).
Qed.

Lemma _build_jss_object_list_items (response : Element) (obj_class : JSSClass) :
  _build_jss_object_list (Some response) obj_class
  = Ok (VList (mkJSSObjectList obj_class
         (List.map (list_record obj_class)
            (List.filter (fun item => negb (bool_decide (elem_tag item = "size")))
               (elem_children response))))).
Proof. reflexivity. Qed.

Lemma filter_not_size (before after : list Element) (size_el : Element) :
  elem_tag size_el = "size" ->
  Forall (fun e => elem_tag e <> "size") (before ++ after) ->
  List.filter (fun item => negb (bool_decide (elem_tag item = "size")))
    (before ++ size_el :: after) = before ++ after.
Proof.
  intros Hs Hall. apply Forall_app in Hall as [Hb Ha].
  assert (forall l, Forall (fun e => elem_tag e <> "size") l ->
            List.filter (fun item => negb (bool_decide (elem_tag item = "size"))) l = l)
    as Hid.
  { induction 1 as [|x l Hx _ IH]; [done|]. simpl.
    rewrite bool_decide_eq_false_2 by done. simpl. by rewrite IH. }
  rewrite List.filter_app. simpl. rewrite bool_decide_eq_true_2 by done. simpl.
  by rewrite !Hid.
Qed.

(** C6. A response whose children are [n] entity elements and one ["size"]
    element, at any position, builds a collection of exactly the [n] entity
    records, in order, each the flat tag-to-text record of its element; the
    ["size"] element gives no item. *)
Theorem build_list_drops_size
    (response : Element) (obj_class : JSSClass)
    (before after : list Element) (size_el : Element) :
  elem_children response = before ++ size_el :: after ->
  elem_tag size_el = "size" ->
  Forall (fun e => elem_tag e <> "size") (before ++ after) ->
  exists items,
    _build_jss_object_list (Some response) obj_class
      = Ok (VList (mkJSSObjectList obj_class items))
    /\ items = List.map (list_record obj_class) (before ++ after)
    /\ length items = length (before ++ after)
    /\ (forall i e, (before ++ after) !! i = Some e ->
          exists r, items !! i = Some r /\ ld_class r = obj_class
                    /\ forall t, ld_data r !! t = last_text t e).
Proof.
  intros Hc Hs Hall. eexists. split; [apply _build_jss_object_list_items|].
  rewrite Hc, (filter_not_size _ _ _ Hs Hall).
  split; [done|]. split; [by rewrite length_map|].
  intros i e Hi. exists (list_record obj_class e).
  split; [|split; [done|]].
  - change (List.map (list_record obj_class) (before ++ after))
      with (list_record obj_class <$> (before ++ after)).
    by rewrite list_lookup_fmap, Hi.
  - intros t. apply tag_text_dict_lookup.
Qed.

(** ** The factory and the verbs *)

Section SessionProperties.

Context {St : Type}.
Variable serve : St -> Request -> St * Response.
Variable fromstring : string -> option Element.
Variable tostring : Element -> string.
Variable error_message : Response -> string.
Variable descr : JSSClass -> Descriptor.

Local Abbreviation Get := (JSS_get St serve fromstring error_message).
Local Abbreviation Post := (JSS_post St serve fromstring tostring error_message descr).
Local Abbreviation GetObject := (get_object St serve fromstring tostring error_message descr).
Local Abbreviation GetObjectWith := (get_object_with St serve fromstring error_message descr).
Local Abbreviation Accessor := (accessor St serve fromstring tostring error_message descr).
Local Abbreviation AfterPost := (after_post St tostring).

(** [JSS.get] sends one request, whatever comes of it, unless the path
    cannot be encoded. *)
Lemma JSS_get_sent (jss : JSS) (url_path : string) (w : World St) :
  sent (Get jss url_path w).2 = sent w ++ wire_requests jss url_path.
Proof.
  unfold JSS_get, bind, lift, encode_utf_8, wire_requests, session_request, get_request.
  destruct (is_ascii url_path); [|simpl; by rewrite app_nil_r].
  destruct (serve (server w) _) as [s' response].
  destruct ((status_code response =? 200) && verbose jss); simpl.
  - by destruct (fromstring (text response)).
  - destruct (status_code response >=? 400); simpl; [done|].
    by destruct (fromstring (text response)).
Qed.

(** A call that does not post does not depend on the [post] it is given. *)
Lemma get_object_with_no_post post post' jss obj_class data subset :
  (forall e, data <> DElement e) ->
  GetObjectWith post jss obj_class data subset
  = GetObjectWith post' jss obj_class data subset.
Proof. intros H. destruct data; try reflexivity. by destruct (H e). Qed.

Lemma get_object_listing jss obj_class subset tags w :
  can_list (descr obj_class) = true -> can_get (descr obj_class) = true ->
  normalize_subset subset = Ok tags ->
  GetObject jss obj_class DNone subset w
  = match Get jss (list_url descr obj_class tags) w with
    | (Ok result, w') =>
        (_build_jss_object_list
           (if negb (bool_decide (container (descr obj_class) = ""))
            then find (container (descr obj_class)) result else Some result)
           obj_class, w')
    | (Raise e, w') => (Raise e, w')
    end.
Proof.
  intros Hl Hg Hn. unfold get_object, get_object_with, bind, lift.
  rewrite Hn, Hl, Hg. simpl. by destruct (Get _ _ w) as [[]].
Qed.

Lemma get_object_fetch jss obj_class data subset tags w :
  is_fetch data = true -> can_get (descr obj_class) = true ->
  normalize_subset subset = Ok tags ->
  GetObject jss obj_class data subset w
  = match Get jss (fetch_url (descr obj_class) data tags) w with
    | (Ok xmldata, w') =>
        match find "size" xmldata with
        | Some _ => (_build_jss_object_list (Some xmldata) obj_class, w')
        | None => (Ok (VObject (mkJSSObject obj_class xmldata)), w')
        end
    | (Raise e, w') => (Raise e, w')
    end.
Proof.
  intros Hf Hg Hn. unfold get_object, get_object_with, bind, lift.
  rewrite Hn. destruct data; try discriminate; rewrite Hg;
    destruct (Get _ _ w) as [[xmldata|] w']; try reflexivity;
    by destruct (find "size" xmldata).
Qed.

Lemma normalize_subset_truthy subset tags :
  normalize_subset subset = Ok tags -> truthy subset = true -> tags <> [].
Proof.
  unfold normalize_subset. intros Hn Ht. rewrite Ht in Hn.
  destruct subset as [|l|s|b]; try discriminate; injection Hn as <-.
  - simpl in Ht. by case_bool_decide.
  - apply split_nonempty.
Qed.

Lemma normalize_subset_falsy subset :
  truthy subset = false -> normalize_subset subset = Ok [].
Proof. unfold normalize_subset. by intros ->. Qed.

(** C8 (amended). A subset that is true in Python's sense and neither a list
    nor a string, or a query argument that is none of [None], an integer, a
    string or an [Element], makes [get_object] raise the Invalid-input
    failure ([TypeError] for the subset, [ValueError] for the argument), the
    world left as it was: no request has been sent. A subset that is false
    in Python's sense, whatever its type, is treated as no subset. *)
Theorem get_object_invalid_input
    (jss : JSS) (obj_class : JSSClass) (data : Data) (subset : Subset) (w : World St) :
  (subset = SOther true \/ data = DOther ->
     exists e,
       GetObject jss obj_class data subset w = (Raise e, w) /\ invalid_input e = true)
  /\ (truthy subset = false ->
       GetObject jss obj_class data subset w = GetObject jss obj_class data SNone w).
Proof.
  split.
  - intros [-> | ->].
    + by exists TypeError.
    + unfold get_object, get_object_with, bind, lift.
      destruct (normalize_subset subset) as [tags|e] eqn:Hn.
      * by exists ValueError.
      * exists e. split; [done|]. unfold normalize_subset in Hn.
        destruct (truthy subset); [|done]. by destruct subset; simplify_eq.
  - intros Hf. unfold get_object, get_object_with, bind, lift.
    by rewrite (normalize_subset_falsy subset Hf).
Qed.

(** C1 (amended). With no query argument and a subset the guard accepts, a
    class whose descriptor permits no GET makes [get_object], and so its
    accessor, raise the Method-not-allowed failure with no request sent; a
    class that permits GET but no listing is fetched whole, by one GET of
    its URL, and comes back as a single object. *)
Theorem get_object_without_argument
    (jss : JSS) (obj_class : JSSClass) (subset : Subset) (tags : list string)
    (w : World St) :
  normalize_subset subset = Ok tags ->
  (can_get (descr obj_class) = false ->
     GetObject jss obj_class DNone subset w
       = (Raise (JSSMethodNotAllowedError (metaclass_name (descr obj_class))), w)
     /\ Accessor jss obj_class DNone subset w
       = (Raise (JSSMethodNotAllowedError (metaclass_name (descr obj_class))), w))
  /\ (can_list (descr obj_class) = false -> can_get (descr obj_class) = true ->
     GetObject jss obj_class DNone subset w
       = match Get jss (get_url (descr obj_class) DNone) w with
         | (Ok xmldata, w') => (Ok (VObject (mkJSSObject obj_class xmldata)), w')
         | (Raise e, w') => (Raise e, w')
         end).
Proof.
  intros Hn. split.
  - intros Hg.
    assert (forall s t, normalize_subset s = Ok t ->
              GetObject jss obj_class DNone s w
              = (Raise (JSSMethodNotAllowedError (metaclass_name (descr obj_class))), w))
      as Hraise.
    { intros s t Hs. unfold get_object, get_object_with, bind, lift.
      rewrite Hs, Hg. by rewrite andb_false_r. }
    split; [by apply (Hraise subset tags)|].
    unfold accessor. destruct (accessor_takes_subset obj_class).
    + by apply (Hraise subset tags).
    + by apply (Hraise SNone []).
  - intros Hl Hg. unfold get_object, get_object_with, bind, lift.
    rewrite Hn, Hl, Hg. simpl. by destruct (Get _ _ w) as [[]].
Qed.

Lemma is_basic_spec (tags : list string) :
  is_basic tags = true <-> exists t, tags = [t] /\ caseless_eq t "basic".
Proof.
  unfold is_basic. rewrite !andb_true_iff, negb_true_iff.
  rewrite bool_decide_eq_false, !bool_decide_eq_true. split.
  - intros [[_ Hlen] Hup]. destruct tags as [|t [|t' tags]]; try discriminate.
    exists t. split; [done|]. by apply upper_basic_iff.
  - intros (t & -> & Ht). split; [done|]. by apply upper_basic_iff.
Qed.

(** C9. A no-argument listing asks [JSS.get] for [list_url], and what it
    sends is the one GET for that path (that GET whenever the path is ASCII;
    nothing, should it not be); that URL is the collection URL with ["/subset/basic"] appended
    exactly when the normalized subset is a single tag that is ["basic"] but
    for letter case and the class is [Computer], and the bare collection URL
    otherwise. *)
Theorem listing_basic_shortcut
    (jss : JSS) (obj_class : JSSClass) (subset : Subset) (tags : list string)
    (w : World St) :
  can_list (descr obj_class) = true -> can_get (descr obj_class) = true ->
  normalize_subset subset = Ok tags ->
  sent (GetObject jss obj_class DNone subset w).2
    = sent w ++ wire_requests jss (list_url descr obj_class tags)
  /\ (list_url descr obj_class tags = get_url (descr obj_class) DNone +:+ "/subset/basic"
      \/ list_url descr obj_class tags = get_url (descr obj_class) DNone)
  /\ (list_url descr obj_class tags = get_url (descr obj_class) DNone +:+ "/subset/basic"
      <-> (exists t, tags = [t] /\ caseless_eq t "basic") /\ obj_class = Computer)
  /\ (is_ascii (list_url descr obj_class tags) = true ->
      sent (GetObject jss obj_class DNone subset w).2
      = sent w ++ [get_request jss (list_url descr obj_class tags)]).
Proof.
  intros Hl Hg Hn.
  assert (sent (GetObject jss obj_class DNone subset w).2
          = sent w ++ wire_requests jss (list_url descr obj_class tags)) as Hsent.
  { rewrite (get_object_listing _ _ _ tags) by done.
    rewrite <- JSS_get_sent. by destruct (Get _ _ w) as [[]]. }
  split; [done|]. split; [|split].
  - unfold list_url. destruct (_ && _); auto.
  - rewrite <- is_basic_spec. unfold list_url, class_is.
    destruct (is_basic tags); simpl.
    + case_bool_decide as Hcls; [done|]. split; [|by intros [_ ?]].
      intros Happ. symmetry in Happ. by apply append_eq_self in Happ.
    + split; [|by intros [? _]].
      intros Happ. symmetry in Happ. by apply append_eq_self in Happ.
  - intros Hascii. rewrite Hsent. unfold wire_requests. by rewrite Hascii.
Qed.

(** C10 (amended). On a class that permits list and get, a no-argument
    listing with a subset that is a list of tags, a string or false in
    Python's sense, and not the single ["basic"] tag on [Computer], does
    exactly what the call without a subset does: same requests, same
    outcome, same world; what is sent is the one GET for the bare collection
    URL (that GET whenever the URL is ASCII; nothing, should it not be). *)
Theorem listing_ignores_subset
    (jss : JSS) (obj_class : JSSClass) (subset : Subset) (tags : list string)
    (w : World St) :
  can_list (descr obj_class) = true -> can_get (descr obj_class) = true ->
  normalize_subset subset = Ok tags ->
  (is_basic tags && class_is obj_class Computer) = false ->
  GetObject jss obj_class DNone subset w = GetObject jss obj_class DNone SNone w
  /\ sent (GetObject jss obj_class DNone subset w).2
     = sent w ++ wire_requests jss (get_url (descr obj_class) DNone)
  /\ (is_ascii (get_url (descr obj_class) DNone) = true ->
      sent (GetObject jss obj_class DNone subset w).2
      = sent w ++ [get_request jss (get_url (descr obj_class) DNone)]).
Proof.
  intros Hl Hg Hn Hb.
  enough (GetObject jss obj_class DNone subset w = GetObject jss obj_class DNone SNone w
          /\ sent (GetObject jss obj_class DNone subset w).2
             = sent w ++ wire_requests jss (get_url (descr obj_class) DNone))
    as [Heq Hsent].
  { split; [done|]. split; [done|]. intros Hascii. rewrite Hsent.
    unfold wire_requests. by rewrite Hascii. }
  assert (list_url descr obj_class tags = get_url (descr obj_class) DNone) as Hu
    by (unfold list_url; by rewrite Hb).
  assert (list_url descr obj_class [] = get_url (descr obj_class) DNone) as Hu'
    by reflexivity.
  rewrite (get_object_listing _ _ _ tags), (get_object_listing _ _ SNone []) by done.
  rewrite Hu, Hu'. split; [done|].
  rewrite <- JSS_get_sent. by destruct (Get _ _ w) as [[]].
Qed.

(** C4 (amended). A by-identifier or by-name fetch on a class that permits
    GET, with a subset that is true in Python's sense and passes the guard,
    asks [JSS.get] for the instance URL followed by ["/subset/"] and the tags
    joined by ["&"]; the tags are the caller's, with ["general"] appended
    when the caller left it out. The request URL is that path percent-encoded
    after the base URL and ["/JSSResource"]: on the wire the tags are joined
    by ["%26"]. *)
Theorem fetch_subset_url
    (jss : JSS) (obj_class : JSSClass) (data : Data) (subset : Subset)
    (tags : list string) (w : World St) :
  is_fetch data = true -> can_get (descr obj_class) = true ->
  normalize_subset subset = Ok tags -> truthy subset = true ->
  (force_general tags = tags
   \/ (("general" ∉ tags) /\ force_general tags = tags ++ ["general"]))
  /\ "general" ∈ force_general tags
  /\ fetch_url (descr obj_class) data tags
     = get_url (descr obj_class) data +:+ "/subset/"
       +:+ String.concat "&" (force_general tags)
  /\ sent (GetObject jss obj_class data subset w).2
     = sent w ++ wire_requests jss (fetch_url (descr obj_class) data tags)
  /\ (is_ascii (fetch_url (descr obj_class) data tags) = true ->
      sent (GetObject jss obj_class data subset w).2
      = sent w ++
        [mkRequest GET
           (_base_url jss +:+ "/JSSResource"
            +:+ quote (get_url (descr obj_class) data) +:+ "/subset/"
            +:+ String.concat "%26" (quote <$> force_general tags))
           None]).
Proof.
  intros Hf Hg Hn Ht.
  pose proof (normalize_subset_truthy _ _ Hn Ht) as Hne.
  assert (sent (GetObject jss obj_class data subset w).2
          = sent w ++ wire_requests jss (fetch_url (descr obj_class) data tags)) as Hsent.
  { rewrite (get_object_fetch _ _ _ _ tags) by done.
    rewrite <- JSS_get_sent. destruct (Get _ _ w) as [[xmldata|] w']; [|done].
    by destruct (find "size" xmldata). }
  split; [|split; [|split; [|split; [done|]]]].
  - unfold force_general. case_bool_decide; auto.
  - unfold force_general. case_bool_decide; [done|]. set_solver.
  - unfold fetch_url. rewrite bool_decide_eq_false_2 by done. simpl.
    by rewrite join_concat.
  - intros Hascii. rewrite Hsent. unfold wire_requests. rewrite Hascii.
    unfold get_request, fetch_url, _url. rewrite bool_decide_eq_false_2 by done. simpl.
    rewrite !quote_app, quote_join, join_concat.
    change (quote "/subset/") with "/subset/".
    change ("/" +:+ "JSSResource") with "/JSSResource".
    by rewrite !append_assoc.
Qed.



End SessionProperties.

(** ** The QuerySet *)

Lemma class_set_one (objects : list Member) :
  length (class_set objects) = 1%nat <-> objects <> [] /\ single_class objects.
Proof.
  unfold class_set, single_class. split.
  - intros Hlen.
    destruct (remove_dups (List.map m_class objects)) as [|c [|c' l]] eqn:Hd;
      try discriminate.
    assert (forall a, a ∈ objects -> m_class a = c) as Hc.
    { intros a Ha.
      assert (m_class a ∈ remove_dups (List.map m_class objects)) as Hin
        by (rewrite elem_of_remove_dups; by apply (list_elem_of_fmap_2 m_class)).
      rewrite Hd in Hin. by apply list_elem_of_singleton in Hin. }
    split; [by intros -> | ].
    intros a b Ha Hb. by rewrite (Hc a Ha), (Hc b Hb).
  - intros [Hne Hsame]. destruct objects as [|o objects]; [done|].
    pose proof (NoDup_remove_dups (List.map m_class (o :: objects))) as Hnd.
    assert (forall c, c ∈ remove_dups (List.map m_class (o :: objects)) -> c = m_class o)
      as Hall.
    { intros c Hc. rewrite elem_of_remove_dups in Hc.
      apply (list_elem_of_fmap_1 m_class) in Hc as (a & -> & Ha).
      apply Hsame; [done | by left]. }
    assert (m_class o ∈ remove_dups (List.map m_class (o :: objects))) as Ho
      by (rewrite elem_of_remove_dups; by left).
    destruct (remove_dups (List.map m_class (o :: objects))) as [|c [|c' l]];
      [by apply elem_of_nil in Ho | done |].
    assert (c = m_class o) as -> by (apply Hall; by left).
    assert (c' = m_class o) as -> by (apply Hall; right; by left).
    apply NoDup_cons in Hnd as [Hnin _]. destruct Hnin. by left.
Qed.

Lemma mixed_not_single (objects : list Member) :
  mixed_classes objects -> ~ single_class objects.
Proof. intros (a & b & Ha & Hb & Hne) Hs. by apply Hne, Hs. Qed.

Lemma QuerySet_init_refuses (self : QuerySet) (objects : list Member) :
  ~ (objects <> [] /\ single_class objects) ->
  QuerySet_init self objects = (Raise ValueError, self).
Proof.
  intros Hn. unfold QuerySet_init. rewrite <- class_set_one in Hn.
  by rewrite bool_decide_eq_false_2.
Qed.

(** C7. [QuerySet(objects)] succeeds exactly when [objects] is non-empty and
    of one class, and then holds [objects] with the class of the first one;
    an empty sequence and a sequence that mixes two classes both fail with
    [ValueError], and [__init__] raises it with the list under construction
    as it found it: no member has been taken in. *)
Theorem QuerySet_construction (objects : list Member) :
  ((exists qs, QuerySet_new objects = Ok qs) <-> objects <> [] /\ single_class objects)
  /\ (forall qs, QuerySet_new objects = Ok qs ->
        qs_items qs = objects /\ contained_class qs = m_class <$> head objects)
  /\ (objects = [] ->
        QuerySet_new objects = Raise ValueError
        /\ forall self, QuerySet_init self objects = (Raise ValueError, self))
  /\ (mixed_classes objects ->
        QuerySet_new objects = Raise ValueError
        /\ forall self, QuerySet_init self objects = (Raise ValueError, self)).
Proof.
  assert (forall qs, QuerySet_new objects = Ok qs ->
            (objects <> [] /\ single_class objects)
            /\ qs_items qs = objects /\ contained_class qs = m_class <$> head objects)
    as Hok.
  { intros qs. unfold QuerySet_new, QuerySet_init. case_bool_decide as Hlen; simpl.
    - apply class_set_one in Hlen. destruct objects as [|o objects]; [by destruct Hlen|].
      by intros [= <-].
    - discriminate. }
  assert (~ (objects <> [] /\ single_class objects) ->
            QuerySet_new objects = Raise ValueError
            /\ forall self, QuerySet_init self objects = (Raise ValueError, self))
    as Hfail.
  { intros Hn. split; [|intros self; by apply QuerySet_init_refuses].
    unfold QuerySet_new. by rewrite QuerySet_init_refuses. }
  split; [|split; [|split]].
  - split.
    + intros [qs Hqs]. by apply (Hok qs).
    + intros Hgood. unfold QuerySet_new, QuerySet_init.
      rewrite bool_decide_eq_true_2 by by apply class_set_one.
      destruct objects as [|o objects]; [by destruct Hgood|]. simpl. by eexists.
  - intros qs Hqs. by apply (Hok qs).
  - intros ->. apply Hfail. by intros [? _].
  - intros Hmix. apply Hfail. intros [_ Hs]. by apply (mixed_not_single objects).
Qed.

Lemma QuerySet_results_rows (self : QuerySet) (results : list string) :
  QuerySet_results self = Ok results ->
  exists header,
    length header = 4%nat
    /\ results = header ++ List.map (item_row self) (qs_items self).
Proof.
  unfold QuerySet_results. destruct (qs_items self) as [|o l]; [done|].
  destruct (contained_class self) as [cls|]; [|done].
  intros [= <-]. by eexists [_; _; _; _].
Qed.

(** C2 (amended). In the table of a QuerySet, the line of the member at
    position [i] is line [4 + i], and its last column is the text of the
    member's marker right-aligned in six columns: the marker itself,
    ["True"] or ["False"], when the marker is a boolean, and ["True"] when
    it is the time of a fetch. *)
Theorem QuerySet_cached_column
    (self : QuerySet) (results : list string) (i : nat) (item : Member) :
  QuerySet_results self = Ok results ->
  qs_items self !! i = Some item ->
  QuerySet_str self = Ok (join newline results)
  /\ results !! (4 + i)%nat = Some (item_row self item)
  /\ item_row self item
     = rjust (m_id item) (id_max self) +:+ " | "
       +:+ rjust (m_name item) (name_max self) +:+ " | "
       +:+ rjust (cached_text item) cache_max
  /\ (forall b : bool, m_cached item = MBool b ->
        cached_text item = if b then "True" else "False")
  /\ (forall t, m_cached item = MDatetime t -> cached_text item = "True").
Proof.
  intros Hres Hi. split; [by unfold QuerySet_str; rewrite Hres|].
  destruct (QuerySet_results_rows _ _ Hres) as (header & Hlen & ->).
  split; [|split; [reflexivity|split]].
  - rewrite lookup_app_r by lia. rewrite Hlen.
    replace (4 + i - 4)%nat with i by lia.
    change (List.map (item_row self) (qs_items self))
      with (item_row self <$> qs_items self).
    by rewrite list_lookup_fmap, Hi.
  - intros b Hb. unfold cached_text. rewrite Hb. by destruct b.
  - intros t Ht. unfold cached_text. by rewrite Ht.
Qed.

(** ** The properties on the sample server *)

Example sample_fetch_url :
  fetch_url (Sample.descr Computer) (DInt 42) ["purchasing"]
    = "/computers/id/42/subset/purchasing&general"
  /\ req_url (get_request Sample.jss "/computers/id/42/subset/purchasing&general")
    = "https://jss.example.org:8443/JSSResource/computers/id/42/subset/purchasing%26general".
Proof. split; reflexivity. Qed.

Example sample_QuerySet_new :
  QuerySet_new [Sample.alpha; Sample.beta; Sample.gamma] = Ok Sample.computers.
Proof. reflexivity. Qed.

Example sample_re_search_id :
  re_search_id "<computer><id>x</id><id>42</id><id>7</id></computer>" = Some "42"
  /\ int_of_digits "42" = 42
  /\ re_search_id "<computer><id></id></computer>" = None.
Proof. repeat split; reflexivity. Qed.

Lemma build_list_drops_size_witness :
  _build_jss_object_list (Some Sample.tree_list) Computer
  = Ok (VList (mkJSSObjectList Computer
         [Sample.item "1" "alpha"; Sample.item "2" "beta"])).
Proof.
  destruct (build_list_drops_size Sample.tree_list Computer []
              [Sample.summary "computer" "1" "alpha"; Sample.summary "computer" "2" "beta"]
              (Sample.leaf "size" "2"))
    as (items & Hbuilt & -> & _).
  - reflexivity.
  - reflexivity.
  - repeat constructor; discriminate.
  - exact Hbuilt.
Defined.

Lemma get_object_invalid_input_witness :
  exists e,
    Sample.factory_get_object Sample.jss Computer (DInt 42) (SOther true) Sample.fresh
      = (Raise e, Sample.fresh)
    /\ invalid_input e = true.
Proof.
  apply (proj1 (get_object_invalid_input Sample.serve Sample.fromstring Sample.tostring
                  Sample.error_message Sample.descr
                  Sample.jss Computer (DInt 42) (SOther true) Sample.fresh)).
  left. reflexivity.
Defined.

(** C8, as stated, fails: a subset that is present, neither a list nor a
    string, and false in Python's sense (such as [0] or [()]) raises nothing;
    the listing goes ahead and a request is sent. *)
Lemma falsy_subset_counterexample :
  Sample.factory_get_object Sample.jss Computer DNone (SOther false) Sample.fresh
  = (Ok (VList (mkJSSObjectList Computer
            [Sample.item "1" "alpha"; Sample.item "2" "beta"])),
     mkWorld [] [get_request Sample.jss "/computers"] []).
Proof. vm_compute. reflexivity. Qed.

Lemma get_object_without_argument_witness :
  Sample.jss_accessor Sample.jss LDAPServer DNone SNone Sample.fresh
  = (Raise (JSSMethodNotAllowedError "type"), Sample.fresh).
Proof.
  apply (proj1 (get_object_without_argument Sample.serve Sample.fromstring
                  Sample.tostring Sample.error_message Sample.descr
                  Sample.jss LDAPServer SNone [] Sample.fresh eq_refl)).
  reflexivity.
Defined.

(** C1, as stated, fails: on a class whose descriptor disallows listing but
    permits GET, the accessor called with no argument sends a GET and returns
    the single object. *)
Lemma listing_disallowed_counterexample :
  can_list (Sample.descr ActivationCode) = false
  /\ Sample.jss_accessor Sample.jss ActivationCode DNone SNone Sample.fresh
     = (Ok (VObject (mkJSSObject ActivationCode Sample.tree_code)),
        mkWorld [] [get_request Sample.jss "/activationcode"] []).
Proof. split; vm_compute; reflexivity. Qed.

Lemma listing_basic_shortcut_witness :
  sent (Sample.factory_get_object Sample.jss Computer DNone (SStr "Basic") Sample.fresh).2
  = [get_request Sample.jss "/computers/subset/basic"].
Proof.
  exact (proj1 (listing_basic_shortcut Sample.serve Sample.fromstring Sample.tostring
                  Sample.error_message Sample.descr
                  Sample.jss Computer (SStr "Basic") ["Basic"] Sample.fresh
                  eq_refl eq_refl eq_refl)).
Defined.

Lemma listing_ignores_subset_witness :
  Sample.factory_get_object Sample.jss Computer DNone (SList ["basic"; "general"])
    Sample.fresh
  = Sample.factory_get_object Sample.jss Computer DNone SNone Sample.fresh.
Proof.
  exact (proj1 (listing_ignores_subset Sample.serve Sample.fromstring Sample.tostring
                  Sample.error_message Sample.descr
                  Sample.jss Computer (SList ["basic"; "general"]) ["basic"; "general"]
                  Sample.fresh eq_refl eq_refl eq_refl eq_refl)).
Defined.

(** C10, as stated, fails: a subset of another type that is true in Python's
    sense (such as [5]) is not ignored by a listing; the call raises
    [TypeError] before any request, where the call without a subset lists. *)
Lemma ill_typed_subset_counterexample :
  Sample.factory_get_object Sample.jss Computer DNone (SOther true) Sample.fresh
    = (Raise TypeError, Sample.fresh)
  /\ Sample.factory_get_object Sample.jss Computer DNone SNone Sample.fresh
    = (Ok (VList (mkJSSObjectList Computer
              [Sample.item "1" "alpha"; Sample.item "2" "beta"])),
       mkWorld [] [get_request Sample.jss "/computers"] []).
Proof. split; vm_compute; reflexivity. Qed.

Lemma fetch_subset_url_witness :
  fetch_url (Sample.descr Computer) (DInt 42) ["purchasing"]
    = "/computers/id/42/subset/purchasing&general"
  /\ sent (Sample.factory_get_object Sample.jss Computer (DInt 42)
             (SList ["purchasing"]) Sample.stocked).2
    = [mkRequest GET
         "https://jss.example.org:8443/JSSResource/computers/id/42/subset/purchasing%26general"
         None].
Proof.
  destruct (fetch_subset_url Sample.serve Sample.fromstring Sample.tostring
              Sample.error_message Sample.descr Sample.jss Computer (DInt 42)
              (SList ["purchasing"]) ["purchasing"] Sample.stocked
              eq_refl eq_refl eq_refl eq_refl)
    as (_ & _ & Hpath & _ & Hwire).
  split; [exact Hpath | exact (Hwire eq_refl)].
Defined.

(** C4, as stated, fails: the URL requested for computer 42 with the subset
    ["purchasing"] ends in ["/subset/purchasing%26general"]; the ["&"]
    between the tags does not reach the wire. *)
Lemma subset_wire_url_counterexample :
  sent (Sample.factory_get_object Sample.jss Computer (DInt 42)
          (SList ["purchasing"]) Sample.stocked).2
  = [mkRequest GET
       "https://jss.example.org:8443/JSSResource/computers/id/42/subset/purchasing%26general"
       None]
  /\ ends_with "/subset/purchasing&general"
       "https://jss.example.org:8443/JSSResource/computers/id/42/subset/purchasing%26general"
     = false
  /\ ends_with "/subset/purchasing%26general"
       "https://jss.example.org:8443/JSSResource/computers/id/42/subset/purchasing%26general"
     = true.
Proof. repeat split; vm_compute; reflexivity. Qed.



Lemma QuerySet_construction_witness :
  QuerySet_new [Sample.alpha; Sample.policy] = Raise ValueError
  /\ QuerySet_init QuerySet_blank [Sample.alpha; Sample.policy]
     = (Raise ValueError, QuerySet_blank).
Proof.
  destruct (proj2 (proj2 (proj2 (QuerySet_construction [Sample.alpha; Sample.policy]))))
    as [Hnew Hinit].
  - exists Sample.alpha, Sample.policy. split; [|split].
    + apply list_elem_of_here.
    + apply list_elem_of_further, list_elem_of_here.
    + discriminate.
  - split; [exact Hnew | exact (Hinit QuerySet_blank)].
Defined.

Lemma QuerySet_cached_column_witness :
  QuerySet_results Sample.computers
  = Ok ["Computer QuerySet"; "-------------------"; "ID |  Name | Cached";
        "-------------------"; " 1 | alpha |   True"; "22 |  Beta |  False";
        " 3 | gamma |   True"]
  /\ item_row Sample.computers Sample.beta = "22 |  Beta |  False"
  /\ cached_text Sample.beta = "False"
  /\ cached_text Sample.gamma = "True".
Proof.
  destruct (QuerySet_cached_column Sample.computers
              ["Computer QuerySet"; "-------------------"; "ID |  Name | Cached";
               "-------------------"; " 1 | alpha |   True"; "22 |  Beta |  False";
               " 3 | gamma |   True"] 1 Sample.beta eq_refl eq_refl)
    as (_ & _ & _ & Hbool & _).
  destruct (QuerySet_cached_column Sample.computers
              ["Computer QuerySet"; "-------------------"; "ID |  Name | Cached";
               "-------------------"; " 1 | alpha |   True"; "22 |  Beta |  False";
               " 3 | gamma |   True"] 2 Sample.gamma eq_refl eq_refl)
    as (_ & _ & _ & _ & Htime).
  split; [reflexivity|]. split; [reflexivity|].
  split; [exact (Hbool false eq_refl) | exact (Htime 1500000000 eq_refl)].
Defined.

(** C2, as stated, fails: a member whose marker is absent ([None], as
    [invalidate] leaves it) is shown as ["True"], not as ["not yet cached"],
    and a member with a fetch time is shown as ["True"], not ["true"]. *)
Lemma cached_column_counterexample :
  m_cached Sample.alpha = MNone
  /\ QuerySet_results Sample.computers
     = Ok ["Computer QuerySet"; "-------------------"; "ID |  Name | Cached";
           "-------------------"; " 1 | alpha |   True"; "22 |  Beta |  False";
           " 3 | gamma |   True"]
  /\ cached_text Sample.alpha = "True"
  /\ String.eqb (cached_text Sample.alpha) "not yet cached" = false
  /\ String.eqb (cached_text Sample.gamma) "true" = false
  /\ QuerySet_results (QuerySet_invalidate Sample.computers)
     = Ok ["Computer QuerySet"; "-------------------"; "ID |  Name | Cached";
           "-------------------"; " 1 | alpha |   True"; "22 |  Beta |   True";
           " 3 | gamma |   True"].
Proof. repeat split; vm_compute; reflexivity. Qed.

(** * Further properties of the verbs and of the factory *)

Section SessionMore.

Context {St : Type}.
Variable serve : St -> Request -> St * Response.
Variable fromstring : string -> option Element.
Variable tostring : Element -> string.
Variable error_message : Response -> string.
Variable descr : JSSClass -> Descriptor.

Local Abbreviation Get := (JSS_get St serve fromstring error_message).
Local Abbreviation Post := (JSS_post St serve fromstring tostring error_message descr).
Local Abbreviation GetObject := (get_object St serve fromstring tostring error_message descr).
Local Abbreviation GetObjectWith := (get_object_with St serve fromstring error_message descr).

Lemma JSS_get_not_ascii (jss : JSS) (url_path : string) (w : World St) :
  is_ascii url_path = false -> Get jss url_path w = (Raise UnicodeDecodeError, w).
Proof. intros H. unfold JSS_get, bind, lift, encode_utf_8. by rewrite H. Qed.

Lemma JSS_get_unfold (jss : JSS) (url_path : string) (w : World St) (s' : St)
    (response : Response) :
  is_ascii url_path = true ->
  serve (server w) (get_request jss url_path) = (s', response) ->
  Get jss url_path w
  = (if status_code response >=? 400 then Raise (JSSGetError (error_message response))
     else match fromstring (text response) with
          | Some xmldata => Ok xmldata
          | None => Raise (JSSGetError ("Error Parsing XML:" +:+ newline +:+ text response))
          end,
     mkWorld s' (sent w ++ [get_request jss url_path])
       (printed w ++ announced jss 200 response
                       ("GET " +:+ (_url jss +:+ quote url_path) +:+ ": Success."))).
Proof.
  intros Hascii Hs. unfold JSS_get, bind, lift, encode_utf_8, session_request, announced.
  rewrite Hascii.
  change (mkRequest GET (_url jss +:+ quote url_path) None)
    with (get_request jss url_path).
  rewrite Hs. destruct (status_code response =? 200) eqn:H200; simpl.
  - apply Z.eqb_eq in H200.
    assert ((status_code response >=? 400) = false) as -> by (rewrite H200; reflexivity).
    destruct (verbose jss); simpl.
    + by destruct (fromstring (text response)).
    + rewrite app_nil_r. by destruct (fromstring (text response)).
  - rewrite app_nil_r. destruct (status_code response >=? 400); simpl; [done|].
    by destruct (fromstring (text response)).
Qed.

(** X1. A path that holds a byte of 128 or more makes [JSS.get] raise
    [UnicodeDecodeError] before anything is sent. For an ASCII path [JSS.get]
    sends one request and moves the server on by it; it returns the parsed
    tree exactly when the status is below 400 and the body parses, whatever
    the status otherwise is; a body that does not parse fails with the raw
    body in the message; and it raises nothing but [JSSGetError]. *)
Theorem JSS_get_outcome (jss : JSS) (url_path : string) (w : World St) (s' : St)
    (response : Response) :
  (is_ascii url_path = false ->
     Get jss url_path w = (Raise UnicodeDecodeError, w))
  /\ (is_ascii url_path = true ->
      serve (server w) (get_request jss url_path) = (s', response) ->
      (forall xmldata,
         (Get jss url_path w).1 = Ok xmldata
         <-> status_code response < 400 /\ fromstring (text response) = Some xmldata)
      /\ (status_code response < 400 -> fromstring (text response) = None ->
          (Get jss url_path w).1
          = Raise (JSSGetError ("Error Parsing XML:" +:+ newline +:+ text response)))
      /\ (forall e, (Get jss url_path w).1 = Raise e -> exists msg, e = JSSGetError msg)
      /\ server (Get jss url_path w).2 = s'
      /\ sent (Get jss url_path w).2 = sent w ++ [get_request jss url_path]).
Proof.
  split; [apply JSS_get_not_ascii|].
  intros Hascii Hs. rewrite (JSS_get_unfold _ _ _ _ _ Hascii Hs). simpl.
  split; [|split; [|split; [|done]]].
  - intros xmldata. destruct (status_code response >=? 400) eqn:Hge.
    + apply Z.geb_le in Hge. split; [done|]. intros [? _]. lia.
    + rewrite Z.geb_leb in Hge. apply Z.leb_gt in Hge.
      destruct (fromstring (text response)) as [x|].
      * split; [intros [= ->]; split; [lia|done] | by intros [_ [= ->]]].
      * split; [done | by intros [_ ?]].
  - intros Hlt ->. destruct (status_code response >=? 400) eqn:Hge; [|done].
    apply Z.geb_le in Hge. lia.
  - intros e. destruct (status_code response >=? 400).
    + intros [= <-]. by eexists.
    + destruct (fromstring (text response)); [done|]. intros [= <-]. by eexists.
Qed.

Lemma footprint_refl (jss : JSS) (w : World St) (n : nat) : footprint n jss w w.
Proof. exists [], []. rewrite !app_nil_r. repeat split; simpl; lia || done. Qed.

Lemma footprint_mono (jss : JSS) (w w' : World St) (n m : nat) :
  (n <= m)%nat -> footprint n jss w w' -> footprint m jss w w'.
Proof.
  intros Hnm (reqs & lines & ? & ? & ? & ? & ?). exists reqs, lines.
  repeat split; try done. lia.
Qed.

Lemma footprint_trans (jss : JSS) (w1 w2 w3 : World St) (n m : nat) :
  footprint n jss w1 w2 -> footprint m jss w2 w3 -> footprint (n + m) jss w1 w3.
Proof.
  intros (r1 & l1 & Hs1 & Hp1 & ? & ? & Hq1) (r2 & l2 & Hs2 & Hp2 & ? & ? & Hq2).
  exists (r1 ++ r2), (l1 ++ l2). rewrite Hs2, Hs1, Hp2, Hp1, !app_assoc, !length_app.
  repeat split; try lia. intros Hv. by rewrite (Hq1 Hv), (Hq2 Hv).
Qed.

Lemma announced_quiet (jss : JSS) (status : Z) (response : Response) (line : string) :
  (length (announced jss status response line) <= 1)%nat
  /\ (verbose jss = false -> announced jss status response line = []).
Proof.
  unfold announced. split.
  - destruct (_ && _); simpl; lia.
  - intros ->. by rewrite andb_false_r.
Qed.

Lemma JSS_get_footprint (jss : JSS) (url_path : string) (w : World St) :
  footprint 1 jss w (Get jss url_path w).2.
Proof.
  destruct (is_ascii url_path) eqn:Hascii;
    [|rewrite JSS_get_not_ascii by done; apply footprint_refl].
  destruct (serve (server w) (get_request jss url_path)) as [s' response] eqn:Hs.
  rewrite (JSS_get_unfold _ _ _ _ _ Hascii Hs). simpl.
  eexists [_], _. repeat split; simpl; try lia; apply announced_quiet.
Qed.

Lemma get_object_with_footprint post (jss : JSS) (obj_class : JSSClass) (data : Data)
    (subset : Subset) (w : World St) :
  (forall e, data <> DElement e) ->
  footprint 1 jss w (GetObjectWith post jss obj_class data subset w).2.
Proof.
  intros Hne. unfold get_object_with, bind, lift.
  destruct (normalize_subset subset) as [tags|]; [|apply footprint_refl].
  destruct data as [|n|s|e|]; [| | |by destruct (Hne e)|apply footprint_refl].
  - destruct (can_list (descr obj_class) && can_get (descr obj_class)).
    + pose proof (JSS_get_footprint jss (list_url descr obj_class tags) w) as Hf.
      by destruct (Get _ _ w) as [[]].
    + destruct (can_get (descr obj_class)); [|apply footprint_refl].
      pose proof (JSS_get_footprint jss (get_url (descr obj_class) DNone) w) as Hf.
      by destruct (Get _ _ w) as [[]].
  - destruct (can_get (descr obj_class)); [|apply footprint_refl].
    pose proof (JSS_get_footprint jss (fetch_url (descr obj_class) (DInt n) tags) w) as Hf.
    destruct (Get _ _ w) as [[x|] ?]; [|done]. by destruct (find "size" x).
  - destruct (can_get (descr obj_class)); [|apply footprint_refl].
    pose proof (JSS_get_footprint jss (fetch_url (descr obj_class) (DStr s) tags) w) as Hf.
    destruct (Get _ _ w) as [[x|] ?]; [|done]. by destruct (find "size" x).
Qed.

Lemma JSS_post_unfold (jss : JSS) (obj_class : JSSClass) (url_path : string)
    (data : Element) (w : World St) (s' : St) (response : Response) :
  serve (server w) (mkRequest POST (_url jss +:+ url_path) (Some (tostring data)))
    = (s', response) ->
  Post jss obj_class url_path data w
  = let w1 := mkWorld s'
                (sent w ++ [mkRequest POST (_url jss +:+ url_path) (Some (tostring data))])
                (printed w ++ announced jss 201 response
                                ("POST " +:+ (_url jss +:+ url_path) +:+ ": Success")) in
    if status_code response >=? 400 then
      (Raise (JSSPostError (error_message response)), w1)
    else match re_search_id (text response) with
         | Some group1 =>
             GetObject jss obj_class (int_data (int_of_digits group1)) SNone w1
         | None => (Raise AttributeError, w1)
         end.
Proof.
  intros Hs. unfold get_object. cbv zeta.
  destruct (re_search_id (text response)) as [group1|] eqn:Hre;
    [rewrite <- (get_object_with_no_post serve fromstring error_message descr
                   (unreachable_post St) Post jss obj_class
                   (int_data (int_of_digits group1)) SNone)
       by (unfold int_data; by destruct (_ <=? _))|];
    unfold JSS_post, JSS_post_with, bind, session_request, announced;
    rewrite Hs; simpl;
    (destruct (status_code response =? 201) eqn:H201; simpl;
     [apply Z.eqb_eq in H201;
      assert ((status_code response >=? 400) = false) as ->
        by (rewrite H201; reflexivity);
      destruct (verbose jss); simpl; rewrite ?app_nil_r, Hre; reflexivity
     |rewrite app_nil_r; destruct (status_code response >=? 400); simpl;
      rewrite ?Hre; reflexivity]).
Qed.

(** X2. Whatever it is asked, [get_object] only adds to the log of requests:
    at most two requests, and at most one unless it creates an object; it
    prints at most one line per request, and nothing at all when the session
    is not verbose. *)
Theorem get_object_footprint (jss : JSS) (obj_class : JSSClass) (data : Data)
    (subset : Subset) (w : World St) :
  footprint 2 jss w (GetObject jss obj_class data subset w).2
  /\ ((forall e, data <> DElement e) ->
      footprint 1 jss w (GetObject jss obj_class data subset w).2).
Proof.
  split; [|by apply get_object_with_footprint].
  assert ((exists e, data = DElement e) \/ (forall e, data <> DElement e))
    as [[e ->]|Hne] by (destruct data; eauto; right; discriminate).
  - unfold get_object, get_object_with, bind, lift.
    destruct (normalize_subset subset) as [tags|]; [|apply footprint_refl].
    destruct (can_post (descr obj_class)); [|apply footprint_refl].
    destruct (serve (server w)
                (mkRequest POST (_url jss +:+ get_post_url (descr obj_class))
                   (Some (tostring e)))) as [s' response] eqn:Hs.
    rewrite (JSS_post_unfold _ _ _ _ _ _ _ Hs). cbv zeta.
    set (w1 := mkWorld s' _ _).
    assert (footprint 1 jss w w1) as H1.
    { eexists [_], _. repeat split; simpl; try lia; apply announced_quiet. }
    destruct (status_code response >=? 400);
      [simpl; apply (footprint_mono _ _ _ 1); [lia|done]|].
    destruct (re_search_id (text response));
      [|simpl; apply (footprint_mono _ _ _ 1); [lia|done]].
    apply (footprint_trans _ _ w1 _ 1 1); [done|].
    apply get_object_with_footprint. unfold int_data. by destruct (_ <=? _).
  - apply (footprint_mono _ _ _ 1); [lia|]. by apply get_object_with_footprint.
Qed.

Lemma get_object_fetch_log (jss : JSS) (obj_class : JSSClass) (data : Data)
    (subset : Subset) (tags : list string) (w : World St) :
  is_fetch data = true -> can_get (descr obj_class) = true ->
  normalize_subset subset = Ok tags ->
  sent (GetObject jss obj_class data subset w).2
  = sent w ++ wire_requests jss (fetch_url (descr obj_class) data tags).
Proof.
  intros Hf Hg Hn.
  rewrite (get_object_fetch serve fromstring tostring error_message descr
             _ _ _ _ tags) by done.
  rewrite <- (JSS_get_sent serve fromstring error_message).
  destruct (Get _ _ w) as [[xmldata|] w']; [|done]. by destruct (find "size" xmldata).
Qed.

Lemma below_400 (status : Z) : status < 400 -> (status >=? 400) = false.
Proof. intros H. rewrite Z.geb_leb. apply Z.leb_gt. lia. Qed.

(** X3. A fetch on a class that permits no GET, and a creation on a class
    that permits no POST, raise the Method-not-allowed failure and leave the
    world as it was: nothing has been sent. *)
Theorem verb_not_permitted (jss : JSS) (obj_class : JSSClass) (data : Data)
    (subset : Subset) (tags : list string) (w : World St) :
  normalize_subset subset = Ok tags ->
  (is_fetch data = true /\ can_get (descr obj_class) = false)
  \/ ((exists e, data = DElement e) /\ can_post (descr obj_class) = false) ->
  GetObject jss obj_class data subset w
  = (Raise (JSSMethodNotAllowedError (metaclass_name (descr obj_class))), w).
Proof.
  intros Hn H. unfold get_object, get_object_with, bind, lift. rewrite Hn.
  destruct H as [[Hf Hg]|[[e ->] Hp]].
  - destruct data; try discriminate; by rewrite Hg.
  - by rewrite Hp.
Qed.

(** X4. A creation on a class that permits POST but no GET, answered with a
    status below 400 and a body that carries an identifier within the range
    of [int], sends the POST and only then raises the Method-not-allowed
    failure, from the re-fetch: the server has been asked to create the
    object when the call fails. *)
Theorem create_without_get (jss : JSS) (obj_class : JSSClass) (e : Element)
    (subset : Subset) (tags : list string) (w : World St) (s' : St)
    (response : Response) (group1 : string) :
  normalize_subset subset = Ok tags ->
  can_post (descr obj_class) = true -> can_get (descr obj_class) = false ->
  serve (server w)
    (mkRequest POST (_url jss +:+ get_post_url (descr obj_class)) (Some (tostring e)))
    = (s', response) ->
  status_code response < 400 ->
  re_search_id (text response) = Some group1 ->
  decimal_value group1 <= sys_maxint ->
  GetObject jss obj_class (DElement e) subset w
  = (Raise (JSSMethodNotAllowedError (metaclass_name (descr obj_class))),
     mkWorld s'
       (sent w ++ [mkRequest POST (_url jss +:+ get_post_url (descr obj_class))
                     (Some (tostring e))])
       (printed w ++ announced jss 201 response
                       ("POST " +:+ (_url jss +:+ get_post_url (descr obj_class))
                        +:+ ": Success"))).
Proof.
  intros Hn Hp Hg Hs Hlt Hre Hint.
  unfold get_object at 1. unfold get_object_with, bind, lift. rewrite Hn, Hp.
  rewrite (JSS_post_unfold _ _ _ _ _ _ _ Hs). cbv zeta.
  rewrite (below_400 _ Hlt), Hre, int_of_digits_decimal.
  unfold int_data. rewrite (proj2 (Z.leb_le _ _) Hint).
  unfold get_object, get_object_with, bind, lift. simpl. by rewrite Hg.
Qed.

(** X5. When the server answers the POST with a status below 400 and a body
    without the pattern, [JSS.post] raises [AttributeError] once the POST
    has been sent, and re-fetches nothing. *)
Theorem post_without_id (jss : JSS) (obj_class : JSSClass) (url_path : string)
    (data : Element) (w : World St) (s' : St) (response : Response) :
  serve (server w) (mkRequest POST (_url jss +:+ url_path) (Some (tostring data)))
    = (s', response) ->
  status_code response < 400 ->
  re_search_id (text response) = None ->
  Post jss obj_class url_path data w
  = (Raise AttributeError,
     mkWorld s'
       (sent w ++ [mkRequest POST (_url jss +:+ url_path) (Some (tostring data))])
       (printed w ++ announced jss 201 response
                       ("POST " +:+ (_url jss +:+ url_path) +:+ ": Success"))).
Proof.
  intros Hs Hlt Hre. rewrite (JSS_post_unfold _ _ _ _ _ _ _ Hs). cbv zeta.
  by rewrite (below_400 _ Hlt), Hre.
Qed.

(** X6. When the server answers the POST with a status of 400 or more,
    [JSS.post] raises [JSSPostError] with the message built from the
    response; the body is not searched, nothing is re-fetched and nothing is
    printed. *)
Theorem post_error_status (jss : JSS) (obj_class : JSSClass) (url_path : string)
    (data : Element) (w : World St) (s' : St) (response : Response) :
  serve (server w) (mkRequest POST (_url jss +:+ url_path) (Some (tostring data)))
    = (s', response) ->
  400 <= status_code response ->
  Post jss obj_class url_path data w
  = (Raise (JSSPostError (error_message response)),
     mkWorld s'
       (sent w ++ [mkRequest POST (_url jss +:+ url_path) (Some (tostring data))])
       (printed w)).
Proof.
  intros Hs Hge. rewrite (JSS_post_unfold _ _ _ _ _ _ _ Hs). cbv zeta.
  assert ((status_code response >=? 400) = true) as -> by by apply Z.geb_le.
  unfold announced.
  assert ((status_code response =? 201) = false) as -> by (apply Z.eqb_neq; lia).
  simpl. by rewrite app_nil_r.
Qed.

(** X7. The re-fetch of [JSS.post] does not wait for a 201: on every status
    below 400 whose body carries the pattern, the digits found are read as
    the number they denote; when that number is within the range of [int]
    the result is that of [get_object] for that identifier, run after the
    POST, and when it is above [sys.maxint], a [long], the call raises
    [ValueError] after the POST and fetches nothing. Only the printed line
    depends on the status being 201. *)
Theorem post_refetches_below_400 (jss : JSS) (obj_class : JSSClass) (url_path : string)
    (data : Element) (w : World St) (s' : St) (response : Response) (group1 : string) :
  serve (server w) (mkRequest POST (_url jss +:+ url_path) (Some (tostring data)))
    = (s', response) ->
  status_code response < 400 ->
  re_search_id (text response) = Some group1 ->
  (decimal_value group1 <= sys_maxint ->
     Post jss obj_class url_path data w
     = GetObject jss obj_class (DInt (decimal_value group1)) SNone
         (mkWorld s'
            (sent w ++ [mkRequest POST (_url jss +:+ url_path) (Some (tostring data))])
            (printed w ++ announced jss 201 response
                            ("POST " +:+ (_url jss +:+ url_path) +:+ ": Success"))))
  /\ (sys_maxint < decimal_value group1 ->
      Post jss obj_class url_path data w
      = (Raise ValueError,
         mkWorld s'
           (sent w ++ [mkRequest POST (_url jss +:+ url_path) (Some (tostring data))])
           (printed w ++ announced jss 201 response
                           ("POST " +:+ (_url jss +:+ url_path) +:+ ": Success")))).
Proof.
  intros Hs Hlt Hre. rewrite (JSS_post_unfold _ _ _ _ _ _ _ Hs). cbv zeta.
  rewrite (below_400 _ Hlt), Hre, int_of_digits_decimal. unfold int_data. split.
  - intros Hint. by rewrite (proj2 (Z.leb_le _ _) Hint).
  - intros Hlong. by rewrite (proj2 (Z.leb_gt _ _) Hlong).
Qed.


Lemma join_split (sep : ascii) (s : string) :
  join (String sep "") (split sep s) = s.
Proof.
  induction s as [|c s IH]; [reflexivity|]. cbn [split].
  pose proof (split_nonempty sep s) as Hne.
  destruct (split sep s) as [|h t]; [done|]. case_bool_decide as Hc.
  - subst c.
    change (join (String sep "") ("" :: h :: t))
      with ("" +:+ String sep "" +:+ join (String sep "") (h :: t)).
    by rewrite IH.
  - destruct t as [|z t];
      [change (String c (join (String sep "") [h]) = String c s)
      |change (String c (join (String sep "") (h :: z :: t)) = String c s)];
      by rewrite IH.
Qed.

Lemma join_snoc (sep : string) (l : list string) (x : string) :
  l <> [] -> join sep (l ++ [x]) = join sep l +:+ sep +:+ x.
Proof.
  induction l as [|y l IH]; [done|]. intros _.
  destruct l as [|z l]; [reflexivity|].
  change ((y :: z :: l) ++ [x]) with (y :: ((z :: l) ++ [x])).
  assert (forall r, r <> [] -> join sep (y :: r) = y +:+ sep +:+ join sep r) as Hj
    by (intros [|] ?; done).
  rewrite Hj by (by destruct l). rewrite IH by done.
  rewrite (Hj (z :: l)) by done. by rewrite !append_assoc.
Qed.

(** X9. A fetch with a subset given as a string asks [JSS.get] for the
    instance URL followed by ["/subset/"] and the caller's string itself when
    one of its ["&"]-separated tags is ["general"], and by the string
    followed by ["&general"] when none is; the one request sent is the GET
    for that path, and nothing is sent when the path is not ASCII. *)
Theorem fetch_string_subset (jss : JSS) (obj_class : JSSClass) (data : Data)
    (s : string) (w : World St) :
  is_fetch data = true -> can_get (descr obj_class) = true -> s <> "" ->
  fetch_url (descr obj_class) data (split "&" s)
    = get_url (descr obj_class) data +:+ "/subset/"
      +:+ (if bool_decide ("general" ∈ split "&" s) then s else s +:+ "&general")
  /\ sent (GetObject jss obj_class data (SStr s) w).2
     = sent w ++ wire_requests jss (fetch_url (descr obj_class) data (split "&" s))
  /\ (is_ascii (fetch_url (descr obj_class) data (split "&" s)) = true ->
      sent (GetObject jss obj_class data (SStr s) w).2
      = sent w ++
        [get_request jss
           (get_url (descr obj_class) data +:+ "/subset/"
            +:+ (if bool_decide ("general" ∈ split "&" s) then s
                 else s +:+ "&general"))]).
Proof.
  intros Hf Hg Hs.
  assert (normalize_subset (SStr s) = Ok (split "&" s)) as Hn.
  { unfold normalize_subset. simpl. by rewrite bool_decide_eq_false_2. }
  assert (fetch_url (descr obj_class) data (split "&" s)
          = get_url (descr obj_class) data +:+ "/subset/"
            +:+ (if bool_decide ("general" ∈ split "&" s) then s else s +:+ "&general"))
    as Hurl.
  { unfold fetch_url, force_general.
    rewrite (bool_decide_eq_false_2 (split "&" s = [])) by apply split_nonempty.
    simpl. case_bool_decide.
    - by rewrite join_split.
    - rewrite join_snoc by apply split_nonempty. by rewrite join_split. }
  split; [done|].
  rewrite (get_object_fetch_log jss obj_class data (SStr s) (split "&" s) w Hf Hg Hn).
  split; [done|]. intros Hascii. unfold wire_requests. by rewrite Hascii, Hurl.
Qed.

(** X10. On the wire, the URL of a fetch with a subset of ASCII tags on an
    ASCII instance URL is the base URL, ["/JSSResource"], the percent-encoded
    instance URL, ["/subset/"] and the percent-encoded tags joined by
    ["%26"]: [JSS.get] encodes the ["&"] between the tags. A tag that holds
    a byte of 128 or more makes the fetch raise [UnicodeDecodeError] with
    nothing sent. *)
Theorem fetch_subset_wire_url (jss : JSS) (obj_class : JSSClass) (data : Data)
    (subset : Subset) (tags : list string) (w : World St) :
  is_fetch data = true -> can_get (descr obj_class) = true ->
  normalize_subset subset = Ok tags -> truthy subset = true ->
  (is_ascii (get_url (descr obj_class) data) = true ->
   Forall (fun t => is_ascii t = true) tags ->
   sent (GetObject jss obj_class data subset w).2
   = sent w ++
     [mkRequest GET
        (_base_url jss +:+ "/JSSResource" +:+ quote (get_url (descr obj_class) data)
         +:+ "/subset/" +:+ join "%26" (quote <$> force_general tags))
        None])
  /\ (forall t, t ∈ tags -> is_ascii t = false ->
      GetObject jss obj_class data subset w = (Raise UnicodeDecodeError, w)).
Proof.
  intros Hf Hg Hn Ht.
  pose proof (normalize_subset_truthy _ _ Hn Ht) as Hne.
  assert (fetch_url (descr obj_class) data tags
          = get_url (descr obj_class) data +:+ "/subset/"
            +:+ join "&" (force_general tags)) as Hurl.
  { unfold fetch_url. by rewrite bool_decide_eq_false_2. }
  split.
  - intros Hascii Htags.
    rewrite (get_object_fetch_log jss obj_class data subset tags w Hf Hg Hn).
    unfold wire_requests. rewrite Hurl.
    assert (is_ascii (get_url (descr obj_class) data +:+ "/subset/"
                      +:+ join "&" (force_general tags)) = true) as ->.
    { rewrite !is_ascii_app, Hascii. simpl. apply is_ascii_join; [done|].
      unfold force_general. case_bool_decide; [done|].
      apply Forall_app. split; [done|]. by apply Forall_singleton. }
    unfold get_request, _url.
    rewrite !quote_app, quote_join.
    change (quote "/subset/") with "/subset/".
    change ("/" +:+ "JSSResource") with "/JSSResource".
    by rewrite !append_assoc.
  - intros t Hin Hbad.
    rewrite (get_object_fetch serve fromstring tostring error_message descr
               _ _ _ _ tags) by done.
    rewrite JSS_get_not_ascii; [done|].
    rewrite Hurl, !is_ascii_app.
    rewrite (is_ascii_join_elem "&" (force_general tags) t); [by rewrite !andb_false_r| |done].
    unfold force_general. case_bool_decide; [done|]. set_solver.
Qed.

End SessionMore.

(** * Further properties of the records, of the base URL and of the QuerySet *)

#[local] Set Warnings "-clear-no-such-hyp".

Lemma tag_text_dict_foldl_dom (d : gmap string (option string)) (l : list Element) :
  dom (foldl (fun d i => <[elem_tag i := elem_text i]> d) d l)
  = dom d ∪ list_to_set (elem_tag <$> l).
Proof.
  revert d. induction l as [|c l IH]; intros d; simpl.
  - set_solver.
  - rewrite IH, dom_insert_L. set_solver.
Qed.

(** X11. The record of a listed element has one key for each distinct tag
    among the element's children, and no other key: children that share a
    tag share an entry. *)
Theorem tag_text_dict_keys (e : Element) :
  dom (tag_text_dict e) = list_to_set (elem_tag <$> elem_children e)
  /\ (forall t, is_Some (tag_text_dict e !! t)
                <-> exists c, c ∈ elem_children e /\ elem_tag c = t).
Proof.
  assert (dom (tag_text_dict e) = list_to_set (elem_tag <$> elem_children e)) as Hdom.
  { unfold tag_text_dict. rewrite tag_text_dict_foldl_dom. set_solver. }
  split; [done|]. intros t. rewrite <- elem_of_dom, Hdom, elem_of_list_to_set.
  rewrite list_elem_of_fmap. naive_solver.
Qed.

Lemma rstrip_slash_decompose (s : string) :
  exists k, s = rstrip_slash s +:+ repeat_char "/" k.
Proof.
  induction s as [|c s [k IH]]; [by exists 0%nat|]. simpl.
  destruct (rstrip_slash s) as [|c' r] eqn:Hr.
  - case_bool_decide as Hc.
    + subst c. exists (S k). simpl. by rewrite IH at 1.
    + exists k. rewrite append_cons. by rewrite IH at 1.
  - exists k. rewrite append_cons. by rewrite IH at 1.
Qed.

Lemma rstrip_slash_last (s : string) : last_char (rstrip_slash s) <> Some "/"%char.
Proof.
  induction s as [|c s IH]; [done|]. simpl.
  destruct (rstrip_slash s) as [|c' r] eqn:Hr.
  - case_bool_decide; [done|]. simpl. congruence.
  - done.
Qed.

Lemma rstrip_slash_fixed (s : string) :
  last_char s <> Some "/"%char -> rstrip_slash s = s.
Proof.
  induction s as [|c s IH]; [done|]. intros Hl. simpl.
  destruct s as [|c' s'].
  - simpl. rewrite bool_decide_eq_false_2; [done|]. simpl in Hl. congruence.
  - by rewrite IH.
Qed.

(** X12. The base URL a [JSS] keeps is the URL it was given without its
    trailing slashes, however many: it never ends in a slash, so [_url] has
    exactly one slash before ["JSSResource"], and setting it again to its
    own value changes nothing. *)
Theorem base_url_without_trailing_slash (url : string) (verbose : bool) :
  (exists k, url = _base_url (JSS_init url verbose) +:+ repeat_char "/" k)
  /\ last_char (_base_url (JSS_init url verbose)) <> Some "/"%char
  /\ _url (JSS_init url verbose) = rstrip_slash url +:+ "/JSSResource"
  /\ JSS_init (_base_url (JSS_init url verbose)) verbose = JSS_init url verbose.
Proof.
  simpl. split; [apply rstrip_slash_decompose|].
  split; [apply rstrip_slash_last|]. split; [reflexivity|].
  unfold JSS_init. by rewrite rstrip_slash_fixed by apply rstrip_slash_last.
Qed.

(** ** Stable sorting *)

Section StableSortProperties.

Context {A K : Type}.
Variable leb : K -> K -> bool.
Variable key : A -> K.
Hypothesis leb_total : forall a b, leb a b = true \/ leb b a = true.
Hypothesis leb_trans : forall a b c, leb a b = true -> leb b c = true -> leb a c = true.

Lemma leb_refl (a : K) : leb a a = true.
Proof. by destruct (leb_total a a). Qed.

Lemma insert_by_Permutation (x : A) (l : list A) : insert_by leb key x l ≡ₚ x :: l.
Proof.
  induction l as [|y l IH]; simpl; [done|].
  destruct (leb (key x) (key y)); [done|]. rewrite IH. apply Permutation_swap.
Qed.

Lemma list_sort_by_Permutation (l : list A) : list_sort_by leb key l ≡ₚ l.
Proof.
  induction l as [|x l IH]; simpl; [done|].
  rewrite insert_by_Permutation. by f_equiv.
Qed.

Lemma insert_by_ordered (x : A) (l : list A) :
  ordered_by leb key l -> ordered_by leb key (insert_by leb key x l).
Proof.
  unfold ordered_by. induction l as [|y l IH]; intros Hs; simpl.
  - by repeat constructor.
  - apply StronglySorted_inv in Hs as [Hs Hy].
    destruct (leb (key x) (key y)) eqn:Hxy.
    + constructor; [by constructor|]. constructor; [done|].
      eapply Forall_impl; [exact Hy|]. intros z Hz. by eapply leb_trans.
    + constructor; [by apply IH|].
      assert (leb (key y) (key x) = true) as Hyx
        by (destruct (leb_total (key x) (key y)); congruence).
      rewrite insert_by_Permutation. by constructor.
Qed.

Lemma list_sort_by_ordered (l : list A) : ordered_by leb key (list_sort_by leb key l).
Proof.
  induction l as [|x l IH]; simpl; [constructor|]. by apply insert_by_ordered.
Qed.

Lemma with_key_cons (k : K) (x : A) (l : list A) :
  with_key leb key k (x :: l)
  = if leb (key x) k && leb k (key x) then x :: with_key leb key k l
    else with_key leb key k l.
Proof. reflexivity. Qed.

Lemma with_key_insert_by (k : K) (x : A) (l : list A) :
  with_key leb key k (insert_by leb key x l) = with_key leb key k (x :: l).
Proof.
  induction l as [|y l IH]; simpl; [done|].
  destruct (leb (key x) (key y)) eqn:Hxy; [done|].
  rewrite (with_key_cons k y), IH, !with_key_cons.
  destruct (leb (key x) k && leb k (key x)) eqn:Hx;
    destruct (leb (key y) k && leb k (key y)) eqn:Hy; try done.
  apply andb_true_iff in Hx as [Hx _]. apply andb_true_iff in Hy as [_ Hy].
  rewrite (leb_trans _ _ _ Hx Hy) in Hxy. discriminate.
Qed.

Lemma list_sort_by_stable (l : list A) : stable_for leb key l (list_sort_by leb key l).
Proof.
  intros k. induction l as [|x l IH]; simpl; [done|].
  rewrite with_key_insert_by, !with_key_cons. by rewrite IH.
Qed.

Lemma elem_of_with_key (a : A) (k : K) (l : list A) :
  a ∈ with_key leb key k l -> a ∈ l.
Proof.
  unfold with_key. rewrite !list_elem_of_In, List.filter_In. by intros [? _].
Qed.

Lemma with_key_head (x : A) (l : list A) :
  with_key leb key (key x) (x :: l) = x :: with_key leb key (key x) l.
Proof. by rewrite with_key_cons, leb_refl. Qed.

(** A list has one stable ordering by its keys. *)
Lemma stable_ordered_unique (l1 l2 : list A) :
  ordered_by leb key l1 -> ordered_by leb key l2 ->
  (forall k, with_key leb key k l1 = with_key leb key k l2) -> l1 = l2.
Proof.
  unfold ordered_by. revert l2.
  induction l1 as [|x l1 IH]; intros [|y l2] H1 H2 Hst; [done| | |].
  - specialize (Hst (key y)). by rewrite with_key_head in Hst.
  - specialize (Hst (key x)). by rewrite with_key_head in Hst.
  - apply StronglySorted_inv in H1 as [H1 Hx].
    apply StronglySorted_inv in H2 as [H2 Hy].
    assert (leb (key x) (key y) = true) as Hxy.
    { assert (y ∈ x :: l1) as Hin.
      { apply (elem_of_with_key y (key y)). rewrite Hst, with_key_head. by left. }
      apply elem_of_cons in Hin as [->|Hin]; [apply leb_refl|].
      by apply (proj1 (Forall_forall _ _) Hx). }
    assert (leb (key y) (key x) = true) as Hyx.
    { assert (x ∈ y :: l2) as Hin.
      { apply (elem_of_with_key x (key x)). rewrite <- Hst, with_key_head. by left. }
      apply elem_of_cons in Hin as [->|Hin]; [apply leb_refl|].
      by apply (proj1 (Forall_forall _ _) Hy). }
    pose proof (Hst (key x)) as Hk.
    rewrite with_key_head, with_key_cons, Hyx, Hxy in Hk. simpl in Hk.
    injection Hk as <- _. f_equal. apply IH; [done..|].
    intros k. specialize (Hst k). rewrite !with_key_cons in Hst.
    destruct (leb (key x) k && leb k (key x)); [by injection Hst|done].
Qed.

End StableSortProperties.

Lemma String_leb_trans (a b c : string) :
  String.leb a b = true -> String.leb b c = true -> String.leb a c = true.
Proof.
  intros Hab Hbc. apply Is_true_true. apply Is_true_true in Hab, Hbc.
  change (String.le a c). by transitivity b.
Qed.

Lemma Z_leb_total (a b : Z) : (a <=? b) = true \/ (b <=? a) = true.
Proof. rewrite !Z.leb_le. lia. Qed.

Lemma Z_leb_trans (a b c : Z) : (a <=? b) = true -> (b <=? c) = true -> (a <=? c) = true.
Proof. rewrite !Z.leb_le. lia. Qed.

(** X13. [sort_by_name] leaves the members it found, in the order of their
    upper-cased names compared byte by byte, members whose names differ only
    in letter case in the order they had; it is the only ordering with these
    properties, and the contained class stays. *)
Theorem sort_by_name_order (self : QuerySet) :
  qs_items (QuerySet_sort_by_name self) ≡ₚ qs_items self
  /\ ordered_by String.leb name_key (qs_items (QuerySet_sort_by_name self))
  /\ stable_for String.leb name_key (qs_items self) (qs_items (QuerySet_sort_by_name self))
  /\ (forall l, ordered_by String.leb name_key l ->
                stable_for String.leb name_key (qs_items self) l ->
                l = qs_items (QuerySet_sort_by_name self))
  /\ contained_class (QuerySet_sort_by_name self) = contained_class self.
Proof.
  split; [apply list_sort_by_Permutation|].
  split; [apply (list_sort_by_ordered _ _ String.leb_total String_leb_trans)|].
  split; [apply (list_sort_by_stable _ _ String_leb_trans)|].
  split; [|done]. intros l Hord Hst.
  apply (stable_ordered_unique String.leb name_key String.leb_total);
    [done|apply (list_sort_by_ordered _ _ String.leb_total String_leb_trans)|].
  intros k. rewrite (Hst k). symmetry.
  apply (list_sort_by_stable _ _ String_leb_trans).
Qed.

Lemma decorate_Ok (py_int : string -> Result Z) (key : Member -> Z) (l : list Member) :
  (forall k, k ∈ l -> py_int (m_id k) = Ok (key k)) ->
  decorate py_int l = Ok (List.map (fun k => (key k, k)) l).
Proof.
  induction l as [|k l IH]; intros Hk; simpl; [done|].
  rewrite (Hk k) by by left. rewrite IH; [done|]. intros k' Hin. apply Hk. by right.
Qed.

Lemma list_sort_by_decorated (key : Member -> Z) (l : list Member) :
  List.map snd (list_sort_by Z.leb fst (List.map (fun k => (key k, k)) l))
  = list_sort_by Z.leb key l.
Proof.
  assert (forall x l,
            insert_by Z.leb fst (key x, x) (List.map (fun k => (key k, k)) l)
            = List.map (fun k => (key k, k)) (insert_by Z.leb key x l)) as Hins.
  { intros x l0. induction l0 as [|y l0 IH]; simpl; [done|].
    destruct (key x <=? key y); simpl; [done|]. by rewrite IH. }
  assert (list_sort_by Z.leb fst (List.map (fun k => (key k, k)) l)
          = List.map (fun k => (key k, k)) (list_sort_by Z.leb key l)) as ->.
  { induction l as [|x l IH]; simpl; [done|]. by rewrite IH, Hins. }
  rewrite List.map_map. simpl. apply List.map_id.
Qed.

(** X14. When [int] reads the identifier of every member, [sort] succeeds
    and leaves the members it found in the order of their identifiers as
    numbers, members with the same number in the order they had; it is the
    only such ordering, and the contained class stays. *)
Theorem sort_by_identifier (py_int : string -> Result Z) (key : Member -> Z)
    (self : QuerySet) :
  (forall k, k ∈ qs_items self -> py_int (m_id k) = Ok (key k)) ->
  exists sorted,
    QuerySet_sort py_int self = (Ok tt, mkQuerySet sorted (contained_class self))
    /\ sorted ≡ₚ qs_items self
    /\ ordered_by Z.leb key sorted
    /\ stable_for Z.leb key (qs_items self) sorted
    /\ (forall l, ordered_by Z.leb key l -> stable_for Z.leb key (qs_items self) l ->
                  l = sorted).
Proof.
  intros Hk. exists (list_sort_by Z.leb key (qs_items self)).
  split; [|split; [|split; [|split]]].
  - unfold QuerySet_sort. by rewrite (decorate_Ok py_int key), list_sort_by_decorated.
  - apply list_sort_by_Permutation.
  - apply (list_sort_by_ordered _ _ Z_leb_total Z_leb_trans).
  - apply (list_sort_by_stable _ _ Z_leb_trans).
  - intros l Hord Hst.
    apply (stable_ordered_unique Z.leb key Z_leb_total);
      [done|apply (list_sort_by_ordered _ _ Z_leb_total Z_leb_trans)|].
    intros k. rewrite (Hst k). symmetry. apply (list_sort_by_stable _ _ Z_leb_trans).
Qed.

(** X15. When [int] rejects the identifier of a member, [sort] raises the
    failure [int] gave for the first such member and leaves the QuerySet as
    it was: no member has moved. *)
Theorem sort_rejected_identifier (py_int : string -> Result Z) (self : QuerySet)
    (before after : list Member) (k : Member) (e : exn) :
  qs_items self = before ++ k :: after ->
  (forall k', k' ∈ before -> exists n, py_int (m_id k') = Ok n) ->
  py_int (m_id k) = Raise e ->
  QuerySet_sort py_int self = (Raise e, self).
Proof.
  intros Hitems Hbefore Hk. unfold QuerySet_sort. rewrite Hitems.
  assert (decorate py_int (before ++ k :: after) = Raise e) as ->; [|done].
  clear Hitems. induction before as [|b before IH]; simpl.
  - by rewrite Hk.
  - destruct (Hbefore b) as [n ->]; [by left|].
    rewrite IH; [done|]. intros k' Hin. apply Hbefore. by right.
Qed.

(** ** The table of a QuerySet *)

(** X16. A QuerySet that [QuerySet(objects)] returned can always be rendered:
    [__str__] raises nothing and gives a title naming the class of the
    members, a bar, the label line, the bar again and one line per member,
    in the order of the members. *)
Theorem QuerySet_new_renders (objects : list Member) (qs : QuerySet) :
  QuerySet_new objects = Ok qs ->
  exists cls bar lbl,
    (forall k, k ∈ objects -> m_class k = cls)
    /\ QuerySet_results qs
       = Ok ([class_name cls +:+ " QuerySet"; bar; lbl; bar]
             ++ List.map (item_row qs) objects)
    /\ QuerySet_str qs
       = Ok (join newline ([class_name cls +:+ " QuerySet"; bar; lbl; bar]
                           ++ List.map (item_row qs) objects)).
Proof.
  unfold QuerySet_new, QuerySet_init. case_bool_decide as Hlen; [|done]. simpl.
  apply class_set_one in Hlen as [Hne Hsame].
  destruct objects as [|o objects]; [done|]. intros [= <-].
  exists (m_class o). eexists _, _. split; [|split].
  - intros k Hk. apply Hsame; [done | by left].
  - reflexivity.
  - reflexivity.
Qed.

Lemma length_spaces (n : nat) : String.length (spaces n) = n.
Proof. induction n as [|n IH]; simpl; congruence. Qed.

Lemma length_repeat_char (c : ascii) (n : nat) : String.length (repeat_char c n) = n.
Proof. induction n as [|n IH]; simpl; congruence. Qed.

Lemma length_rjust (s : string) (w : nat) :
  String.length (rjust s w) = (w `max` String.length s)%nat.
Proof. unfold rjust. rewrite length_append, length_spaces. lia. Qed.

Lemma length_STR_FMT (a : string) (wa : nat) (b : string) (wb : nat) (c : string)
    (wc : nat) :
  String.length (STR_FMT a wa b wb c wc)
  = ((wa `max` String.length a) + (wb `max` String.length b)
     + (wc `max` String.length c) + 6)%nat.
Proof.
  unfold STR_FMT. rewrite !length_append, !length_rjust.
  change (String.length " | ") with 3%nat. lia.
Qed.

Lemma length_cached_text (item : Member) :
  (String.length (cached_text item) <= cache_max)%nat.
Proof.
  unfold cached_text, cache_max. destruct (m_cached item) as [|[]|]; simpl; lia.
Qed.

(** X17. In the table of a QuerySet every member's line has the same width,
    the widest identifier plus the widest name plus twelve; the bar is as
    wide as the label line, whose columns are never narrower than the words
    ["ID"] and ["Name"], so the label line is wider than the members' lines
    when every identifier is one byte long or every name under four. *)
Theorem QuerySet_table_widths (self : QuerySet) (results : list string) :
  QuerySet_results self = Ok results ->
  (forall i row, results !! (4 + i)%nat = Some row ->
     String.length row = (id_max self + name_max self + 12)%nat)
  /\ (exists title bar lbl rows,
        results = title :: bar :: lbl :: bar :: rows
        /\ String.length bar = String.length lbl
        /\ String.length lbl
           = ((id_max self `max` 2) + (name_max self `max` 4) + 12)%nat).
Proof.
  unfold QuerySet_results. destruct (qs_items self) as [|o l] eqn:Hitems; [done|].
  destruct (contained_class self) as [cls|]; [|done]. intros [= <-]. split.
  - intros i row Hrow. cbn [app lookup list_lookup] in Hrow.
    change (List.map (item_row self) (o :: l) !! i = Some row) in Hrow.
    change (List.map (item_row self) (o :: l)) with (item_row self <$> (o :: l)) in Hrow.
    apply list_lookup_fmap_Some in Hrow as (item & -> & Hitem).
    apply list_elem_of_lookup_2 in Hitem. rewrite <- Hitems in Hitem.
    unfold item_row. rewrite length_STR_FMT.
    assert (String.length (m_id item) <= id_max self)%nat.
    { apply max_list_elem_of_le. unfold id_max.
      by apply (list_elem_of_fmap_2 (fun item => String.length (m_id item))). }
    assert (String.length (m_name item) <= name_max self)%nat.
    { apply max_list_elem_of_le. unfold name_max.
      by apply (list_elem_of_fmap_2 (fun item => String.length (m_name item))). }
    pose proof (length_cached_text item). unfold cache_max in *. simpl in *. lia.
  - eexists _, _, _, _. split; [reflexivity|].
    rewrite length_repeat_char. split; [done|].
    rewrite length_STR_FMT. unfold cache_max. simpl. lia.
Qed.

Lemma invalidate_maxes (self : QuerySet) :
  id_max (QuerySet_invalidate self) = id_max self
  /\ name_max (QuerySet_invalidate self) = name_max self.
Proof.
  unfold id_max, name_max, QuerySet_invalidate. simpl.
  by rewrite !List.map_map.
Qed.

(** X18. After [invalidate] every member's marker is [None] and nothing else
    about the members has changed, and the table is the table of before
    with ["True"] in the cached column of every member: a QuerySet that has
    just been invalidated is shown as cached throughout. *)
Theorem invalidate_then_render (self : QuerySet) (results : list string) :
  QuerySet_results self = Ok results ->
  Forall (fun k => m_cached k = MNone) (qs_items (QuerySet_invalidate self))
  /\ List.map (fun k => (m_class k, m_id k, m_name k)) (qs_items (QuerySet_invalidate self))
     = List.map (fun k => (m_class k, m_id k, m_name k)) (qs_items self)
  /\ contained_class (QuerySet_invalidate self) = contained_class self
  /\ QuerySet_results (QuerySet_invalidate self)
     = Ok (take 4 results
           ++ List.map (fun k => STR_FMT (m_id k) (id_max self) (m_name k)
                                   (name_max self) "True" cache_max)
                (qs_items self)).
Proof.
  intros Hres. split; [|split; [|split; [done|]]].
  - unfold QuerySet_invalidate. simpl. apply Forall_forall. intros k Hk.
    change (List.map ?f ?l) with (f <$> l) in Hk.
    by apply list_elem_of_fmap in Hk as (k' & -> & _).
  - unfold QuerySet_invalidate. simpl. by rewrite List.map_map.
  - destruct (invalidate_maxes self) as [Hid Hname].
    assert (List.map (item_row (QuerySet_invalidate self))
              (qs_items (QuerySet_invalidate self))
            = List.map (fun k => STR_FMT (m_id k) (id_max self) (m_name k)
                                   (name_max self) "True" cache_max)
                (qs_items self)) as Hrows.
    { unfold QuerySet_invalidate at 2. simpl. rewrite List.map_map.
      unfold item_row, cached_text. simpl. by rewrite Hid, Hname. }
    unfold QuerySet_results in *. rewrite Hid, Hname, Hrows.
    change (contained_class (QuerySet_invalidate self)) with (contained_class self).
    change (qs_items (QuerySet_invalidate self))
      with (List.map (fun i => mkMember (m_class i) (m_id i) (m_name i) MNone)
              (qs_items self)).
    destruct (qs_items self) as [|o l]; [done|].
    destruct (contained_class self) as [cls|]; [|done]. by injection Hres as <-.
Qed.

(** ** The further properties on the sample servers *)

Lemma JSS_get_outcome_witness :
  JSS_get string SampleMore.serve SampleMore.fromstring Sample.error_message
    Sample.jss ("/caf" +:+ String "233"%char EmptyString) (mkWorld "garbage" [] [])
  = (Raise UnicodeDecodeError, mkWorld "garbage" [] [])
  /\ (JSS_get string SampleMore.serve SampleMore.fromstring Sample.error_message
        Sample.jss "/computers" (mkWorld "garbage" [] [])).1
     = Raise (JSSGetError ("Error Parsing XML:" +:+ newline +:+ "garbage")).
Proof.
  split.
  - exact (proj1 (JSS_get_outcome SampleMore.serve SampleMore.fromstring
                    Sample.error_message Sample.jss
                    ("/caf" +:+ String "233"%char EmptyString)
                    (mkWorld "garbage" [] []) "garbage" (mkResponse 200 "garbage"))
             eq_refl).
  - apply (proj1 (proj2 (proj2 (JSS_get_outcome SampleMore.serve SampleMore.fromstring
                                  Sample.error_message Sample.jss "/computers"
                                  (mkWorld "garbage" [] []) "garbage"
                                  (mkResponse 200 "garbage"))
                           eq_refl eq_refl)));
      reflexivity.
Defined.

Lemma get_object_footprint_witness :
  footprint 1 Sample.jss Sample.stocked
    (Sample.factory_get_object Sample.jss Computer (DInt 42) SNone Sample.stocked).2.
Proof.
  apply (proj2 (get_object_footprint Sample.serve Sample.fromstring Sample.tostring
                  Sample.error_message Sample.descr
                  Sample.jss Computer (DInt 42) SNone Sample.stocked)).
  discriminate.
Defined.

Lemma verb_not_permitted_witness :
  Sample.factory_get_object Sample.jss ActivationCode
    (DElement (Sample.leaf "activation_code" "ABCD")) SNone Sample.fresh
  = (Raise (JSSMethodNotAllowedError "type"), Sample.fresh).
Proof.
  apply (verb_not_permitted Sample.serve Sample.fromstring Sample.tostring
           Sample.error_message Sample.descr
           Sample.jss ActivationCode (DElement (Sample.leaf "activation_code" "ABCD"))
           SNone [] Sample.fresh eq_refl).
  right. split; [by eexists | reflexivity].
Defined.

Lemma create_without_get_witness :
  get_object (list Z) Sample.serve Sample.fromstring Sample.tostring
    Sample.error_message SampleMore.descr Sample.jss Computer
    (DElement (Sample.summary "computer" "0" "gamma")) SNone Sample.fresh
  = (Raise (JSSMethodNotAllowedError "type"),
     mkWorld [42]
       [mkRequest POST "https://jss.example.org:8443/JSSResource/computers/id/0"
          (Some "<computer><id>0</id><name>gamma</name></computer>")] []).
Proof.
  exact (create_without_get Sample.serve Sample.fromstring Sample.tostring
           Sample.error_message SampleMore.descr Sample.jss Computer
           (Sample.summary "computer" "0" "gamma") SNone [] Sample.fresh
           [42] (mkResponse 201 Sample.body_created) "42"
           eq_refl eq_refl eq_refl eq_refl eq_refl eq_refl ltac:(by vm_compute)).
Defined.

Lemma post_without_id_witness :
  JSS_post string SampleMore.serve SampleMore.fromstring Sample.tostring
    Sample.error_message Sample.descr Sample.jss Computer "/computers/id/0"
    (Sample.summary "computer" "0" "gamma") (mkWorld "bare" [] [])
  = (Raise AttributeError,
     mkWorld "bare"
       [mkRequest POST "https://jss.example.org:8443/JSSResource/computers/id/0"
          (Some "<computer><id>0</id><name>gamma</name></computer>")] []).
Proof.
  exact (post_without_id SampleMore.serve SampleMore.fromstring Sample.tostring
           Sample.error_message Sample.descr Sample.jss Computer "/computers/id/0"
           (Sample.summary "computer" "0" "gamma") (mkWorld "bare" [] [])
           "bare" (mkResponse 200 "<computer><name>gamma</name></computer>")
           eq_refl eq_refl eq_refl).
Defined.

Lemma post_error_status_witness :
  JSS_post unit SampleMore.refusing Sample.fromstring Sample.tostring
    Sample.error_message Sample.descr Sample.jss Computer "/computers/id/0"
    (Sample.summary "computer" "0" "gamma") (mkWorld tt [] [])
  = (Raise (JSSPostError "409"),
     mkWorld tt
       [mkRequest POST "https://jss.example.org:8443/JSSResource/computers/id/0"
          (Some "<computer><id>0</id><name>gamma</name></computer>")] []).
Proof.
  apply (post_error_status SampleMore.refusing Sample.fromstring Sample.tostring
           Sample.error_message Sample.descr Sample.jss Computer "/computers/id/0"
           (Sample.summary "computer" "0" "gamma") (mkWorld tt [] [])
           tt (mkResponse 409 "Conflict") eq_refl).
  discriminate.
Defined.

Lemma post_refetches_below_400_witness :
  JSS_post unit SampleMore.lenient SampleMore.parse Sample.tostring
    Sample.error_message Sample.descr Sample.jss Computer "/computers/id/0"
    (Sample.summary "computer" "0" "delta") (mkWorld tt [] [])
  = (Ok (VObject (mkJSSObject Computer SampleMore.tree_1207)),
     mkWorld tt
       [mkRequest POST "https://jss.example.org:8443/JSSResource/computers/id/0"
          (Some "<computer><id>0</id><name>delta</name></computer>");
        get_request Sample.jss "/computers/id/1207"] [])
  /\ JSS_post unit SampleMore.overflowing SampleMore.parse Sample.tostring
       Sample.error_message Sample.descr Sample.jss Computer "/computers/id/0"
       (Sample.summary "computer" "0" "delta") (mkWorld tt [] [])
     = (Raise ValueError,
        mkWorld tt
          [mkRequest POST "https://jss.example.org:8443/JSSResource/computers/id/0"
             (Some "<computer><id>0</id><name>delta</name></computer>")] []).
Proof.
  split.
  - exact (proj1 (post_refetches_below_400 SampleMore.lenient SampleMore.parse
                    Sample.tostring Sample.error_message Sample.descr Sample.jss
                    Computer "/computers/id/0"
                    (Sample.summary "computer" "0" "delta") (mkWorld tt [] [])
                    tt (mkResponse 200 SampleMore.created_1207) "1207"
                    eq_refl eq_refl eq_refl)
             ltac:(by vm_compute)).
  - exact (proj2 (post_refetches_below_400 SampleMore.overflowing SampleMore.parse
                    Sample.tostring Sample.error_message Sample.descr Sample.jss
                    Computer "/computers/id/0"
                    (Sample.summary "computer" "0" "delta") (mkWorld tt [] [])
                    tt (mkResponse 201 "<computer><id>9223372036854775808</id></computer>")
                    "9223372036854775808" eq_refl eq_refl eq_refl)
             ltac:(by vm_compute)).
Defined.


Lemma fetch_subset_wire_url_witness :
  sent (Sample.factory_get_object Sample.jss Computer (DStr "MacBook Pro")
          (SList ["hardware"; "general"]) Sample.stocked).2
  = [mkRequest GET
       "https://jss.example.org:8443/JSSResource/computers/name/MacBook%20Pro/subset/hardware%26general"
       None]
  /\ Sample.factory_get_object Sample.jss Computer (DInt 42)
       (SList ["caf" +:+ String "233"%char EmptyString]) Sample.stocked
     = (Raise UnicodeDecodeError, Sample.stocked).
Proof.
  split.
  - apply (proj1 (fetch_subset_wire_url Sample.serve Sample.fromstring Sample.tostring
                    Sample.error_message Sample.descr Sample.jss Computer
                    (DStr "MacBook Pro") (SList ["hardware"; "general"])
                    ["hardware"; "general"] Sample.stocked
                    eq_refl eq_refl eq_refl eq_refl)); [reflexivity|].
    repeat constructor.
  - apply (proj2 (fetch_subset_wire_url Sample.serve Sample.fromstring Sample.tostring
                    Sample.error_message Sample.descr Sample.jss Computer
                    (DInt 42) (SList ["caf" +:+ String "233"%char EmptyString])
                    ["caf" +:+ String "233"%char EmptyString] Sample.stocked
                    eq_refl eq_refl eq_refl eq_refl)
             ("caf" +:+ String "233"%char EmptyString));
      [apply list_elem_of_here | reflexivity].
Defined.

Lemma fetch_string_subset_witness :
  sent (Sample.factory_get_object Sample.jss Computer (DInt 42) (SStr "purchasing")
          Sample.stocked).2
  = [get_request Sample.jss "/computers/id/42/subset/purchasing&general"].
Proof.
  apply (proj2 (proj2 (fetch_string_subset Sample.serve Sample.fromstring
                         Sample.tostring Sample.error_message Sample.descr
                         Sample.jss Computer (DInt 42) "purchasing" Sample.stocked
                         eq_refl eq_refl ltac:(discriminate))));
    reflexivity.
Defined.

Lemma sort_by_identifier_witness :
  QuerySet_sort SampleMore.py_int SampleMore.unsorted
  = (Ok tt,
     mkQuerySet [SampleMore.m2; SampleMore.m3; SampleMore.m9; SampleMore.m10]
       (Some Computer)).
Proof.
  destruct (sort_by_identifier SampleMore.py_int SampleMore.by_digits SampleMore.unsorted)
    as (sorted & Hsort & _).
  - intros k Hk. repeat (apply elem_of_cons in Hk as [->|Hk]; [reflexivity|]).
    by apply elem_of_nil in Hk.
  - reflexivity.
Defined.

Lemma sort_rejected_identifier_witness :
  QuerySet_sort SampleMore.py_int
    (mkQuerySet [SampleMore.m10; SampleMore.unsaved; SampleMore.m2] (Some Computer))
  = (Raise ValueError,
     mkQuerySet [SampleMore.m10; SampleMore.unsaved; SampleMore.m2] (Some Computer)).
Proof.
  apply (sort_rejected_identifier SampleMore.py_int
           (mkQuerySet [SampleMore.m10; SampleMore.unsaved; SampleMore.m2] (Some Computer))
           [SampleMore.m10] [SampleMore.m2] SampleMore.unsaved ValueError eq_refl).
  - intros k' Hk. apply list_elem_of_singleton in Hk as ->. by eexists.
  - reflexivity.
Defined.

Lemma QuerySet_new_renders_witness :
  exists cls bar lbl,
    (forall k, k ∈ [Sample.alpha; Sample.beta; Sample.gamma] -> m_class k = cls)
    /\ QuerySet_results Sample.computers
       = Ok ([class_name cls +:+ " QuerySet"; bar; lbl; bar]
             ++ List.map (item_row Sample.computers)
                  [Sample.alpha; Sample.beta; Sample.gamma])
    /\ QuerySet_str Sample.computers
       = Ok (join newline ([class_name cls +:+ " QuerySet"; bar; lbl; bar]
                           ++ List.map (item_row Sample.computers)
                                [Sample.alpha; Sample.beta; Sample.gamma])).
Proof.
  exact (QuerySet_new_renders [Sample.alpha; Sample.beta; Sample.gamma]
           Sample.computers eq_refl).
Defined.

Lemma QuerySet_table_widths_witness :
  String.length "9 | Alpha |   True" = 18%nat
  /\ exists title bar lbl rows,
       ["Computer QuerySet"; "-------------------"; "ID |  Name | Cached";
        "-------------------"; "9 | Alpha |   True"; "2 | gamma |   True"]
       = title :: bar :: lbl :: bar :: rows
       /\ String.length bar = String.length lbl
       /\ String.length lbl = 19%nat.
Proof.
  destruct (QuerySet_table_widths
              (mkQuerySet [SampleMore.m9; SampleMore.m2] (Some Computer))
              ["Computer QuerySet"; "-------------------"; "ID |  Name | Cached";
               "-------------------"; "9 | Alpha |   True"; "2 | gamma |   True"]
              eq_refl) as [Hrows Hlabel].
  split; [exact (Hrows 0%nat "9 | Alpha |   True" eq_refl) | exact Hlabel].
Defined.

Lemma invalidate_then_render_witness :
  QuerySet_results (QuerySet_invalidate Sample.computers)
  = Ok ["Computer QuerySet"; "-------------------"; "ID |  Name | Cached";
        "-------------------"; " 1 | alpha |   True"; "22 |  Beta |   True";
        " 3 | gamma |   True"].
Proof.
  exact (proj2 (proj2 (proj2
           (invalidate_then_render Sample.computers
              ["Computer QuerySet"; "-------------------"; "ID |  Name | Cached";
               "-------------------"; " 1 | alpha |   True"; "22 |  Beta |  False";
               " 3 | gamma |   True"] eq_refl)))).
Defined.

(** ** The path on the wire, and sorting before rendering *)

Lemma hex_digits_safe (c : ascii) :
  quoted_byte (hex_digit (nat_of_ascii c / 16)) = true
  /\ quoted_byte (hex_digit (nat_of_ascii c mod 16)) = true.
Proof. destruct c as [[] [] [] [] [] [] [] []]; vm_compute; by split. Qed.

Lemma quote_bytes (s : string) : all_bytes quoted_byte (quote s) = true.
Proof.
  induction s as [|c s IH]; [reflexivity|]. cbn [quote].
  destruct (quote_safe c) eqn:Hc; cbn [all_bytes].
  - unfold quoted_byte at 1. by rewrite Hc, IH.
  - destruct (hex_digits_safe c) as [-> ->]. by rewrite IH.
Qed.

Lemma quote_safe_path (s : string) : all_bytes quote_safe s = true -> quote s = s.
Proof.
  induction s as [|c s IH]; [reflexivity|]. simpl.
  intros [Hc Hs]%andb_true_iff. by rewrite Hc, IH.
Qed.

(** X19. The URL [JSS.get] requests is [_url] followed by the path with every
    byte other than a letter, a digit or one of [_.-/] percent-encoded: what
    follows [_url] holds only those bytes and ["%"], and a path made of those
    bytes alone goes out unchanged. *)
Theorem get_request_encoded (jss : JSS) (url_path : string) :
  exists encoded,
    get_request jss url_path = mkRequest GET (_url jss +:+ encoded) None
    /\ all_bytes quoted_byte encoded = true
    /\ (all_bytes quote_safe url_path = true -> encoded = url_path).
Proof.
  exists (quote url_path). split; [reflexivity|].
  split; [apply quote_bytes | apply quote_safe_path].
Qed.

Lemma sort_by_name_maxes (self : QuerySet) :
  id_max (QuerySet_sort_by_name self) = id_max self
  /\ name_max (QuerySet_sort_by_name self) = name_max self.
Proof.
  unfold id_max, name_max, QuerySet_sort_by_name. simpl.
  change (List.map ?f ?l) with (f <$> l).
  by rewrite !(list_sort_by_Permutation String.leb (fun k => upper (m_name k))).
Qed.

(** X20. Sorting by name does not disturb the table: a QuerySet that renders
    still renders after [sort_by_name], with the same title, bar and label
    line and the same member lines, now in the order of the names. *)
Theorem sort_by_name_then_render (self : QuerySet) (results : list string) :
  QuerySet_results self = Ok results ->
  QuerySet_results (QuerySet_sort_by_name self)
  = Ok (take 4 results
        ++ List.map (item_row self) (qs_items (QuerySet_sort_by_name self)))
  /\ drop 4 results = List.map (item_row self) (qs_items self)
  /\ List.map (item_row self) (qs_items (QuerySet_sort_by_name self))
     ≡ₚ drop 4 results.
Proof.
  intros Hres.
  assert (qs_items (QuerySet_sort_by_name self) ≡ₚ qs_items self) as Hperm
    by apply list_sort_by_Permutation.
  destruct (sort_by_name_maxes self) as [Hid Hname].
  assert (drop 4 results = List.map (item_row self) (qs_items self)
          /\ QuerySet_results (QuerySet_sort_by_name self)
             = Ok (take 4 results
                   ++ List.map (item_row self) (qs_items (QuerySet_sort_by_name self))))
    as [Hdrop Hsorted].
  { unfold QuerySet_results in *.
    assert (List.map (item_row (QuerySet_sort_by_name self))
              (qs_items (QuerySet_sort_by_name self))
            = List.map (item_row self) (qs_items (QuerySet_sort_by_name self))) as ->.
    { unfold item_row. by rewrite Hid, Hname. }
    rewrite Hid, Hname.
    change (contained_class (QuerySet_sort_by_name self)) with (contained_class self).
    destruct (qs_items self) as [|o l] eqn:Hitems; [done|].
    destruct (contained_class self) as [cls|]; [|done]. injection Hres as <-.
    split; [reflexivity|].
    destruct (qs_items (QuerySet_sort_by_name self)) as [|o' l'] eqn:Hs; [|done].
    apply Permutation_nil_l in Hperm. discriminate. }
  split; [done|]. split; [done|].
  rewrite Hdrop. change (List.map ?f ?l) with (f <$> l). by rewrite Hperm.
Qed.

Lemma sort_by_name_then_render_witness :
  QuerySet_results (QuerySet_sort_by_name SampleMore.unsorted)
  = Ok ["Computer QuerySet"; "-------------------"; "ID |  Name | Cached";
        "-------------------"; " 9 | Alpha |   True"; " 3 | ALPHA |  False";
        "10 |  beta |  False"; " 2 | gamma |   True"].
Proof.
  exact (proj1 (sort_by_name_then_render SampleMore.unsorted
                  ["Computer QuerySet"; "-------------------"; "ID |  Name | Cached";
                   "-------------------"; "10 |  beta |  False"; " 9 | Alpha |   True";
                   " 2 | gamma |   True"; " 3 | ALPHA |  False"] eq_refl)).
Defined.
